(** * VAULT PDF Generator (app.py): a shallow embedding and its properties

    The service has two authenticated operations, [generate_affidavit]
    (compose a transaction affidavit and store it under a generated file
    name) and [download_affidavit] (stream a stored file back), a layout
    routine [create_affidavit_pdf] and a page decorator
    [add_page_elements].

    Conventions of the embedding:
    - a Python [str] is a [string]; [bytes] is a [list Byte.byte];
    - a raised exception is the [Raise] side of [result];
    - the file system, the clock and the random source are explicit: the
      handlers take the file system and return the new one, and every call
      receives the UUIDs and the clock reading it would draw;
    - lengths that the source computes in floating point (points, inches)
      are exact rationals here. *)

From Stdlib Require Import ZArith QArith Ascii String List Lia DecimalString PrimFloat.
From stdpp Require Import gmap strings list.

(** ** Results and exceptions *)

Inductive result (E A : Type) : Type :=
| Ok (a : A)
| Raise (e : E).
Arguments Ok {E A} a.
Arguments Raise {E A} e.

(** ** Python [str] methods used by the source *)

Module str.

(** [s.startswith(p)] *)
Definition startswith (s p : string) : bool := String.prefix p s.

Fixpoint replace_go (old new : string) (skip : nat) (s : string) : string :=
  match s with
  | EmptyString => EmptyString
  | String c s' =>
      match skip with
      | S k => replace_go old new k s'
      | O =>
          if String.prefix old s
          then new +:+ replace_go old new (String.length old - 1) s'
          else String c (replace_go old new 0 s')
      end
  end.

Fixpoint intersperse (new s : string) : string :=
  match s with
  | EmptyString => new
  | String c s' => new +:+ String c (intersperse new s')
  end.

(** [s.replace(old, new)]: every non-overlapping occurrence of [old],
    scanning from the left, is replaced; an empty [old] matches between
    all characters. *)
Definition replace (s old new : string) : string :=
  match old with
  | EmptyString => intersperse new s
  | _ => replace_go old new 0 s
  end.

Definition upper_char (c : ascii) : ascii :=
  let n := nat_of_ascii c in
  if ((97 <=? n) && (n <=? 122))%nat then ascii_of_nat (n - 32) else c.

Fixpoint map_chars (f : ascii → ascii) (s : string) : string :=
  match s with
  | EmptyString => EmptyString
  | String c s' => String (f c) (map_chars f s')
  end.

(** [s.upper()] on the ASCII range *)
Definition upper (s : string) : string := map_chars upper_char s.

(** [s[:n]] *)
Definition take (n : nat) (s : string) : string := String.substring 0 n s.

Fixpoint forallb (p : ascii → bool) (s : string) : bool :=
  match s with
  | EmptyString => true
  | String c s' => p c && forallb p s'
  end.

(** [c not in s] for a one-character [c] *)
Definition lacks (c : ascii) (s : string) : bool :=
  forallb (fun d => negb (Ascii.eqb d c)) s.

(** [s.split(sep)] for a one-character separator *)
Fixpoint split (sep : ascii) (s : string) : list string :=
  match s with
  | EmptyString => [EmptyString]
  | String c s' =>
      if Ascii.eqb c sep then EmptyString :: split sep s'
      else match split sep s' with
           | h :: t => String c h :: t
           | [] => [String c EmptyString]
           end
  end.

(** [c in s] for a one-character [c] *)
Definition has (c : ascii) (s : string) : bool := negb (lacks c s).

Definition hex_nibble (n : nat) : ascii :=
  nth n ["0"; "1"; "2"; "3"; "4"; "5"; "6"; "7";
         "8"; "9"; "a"; "b"; "c"; "d"; "e"; "f"]%char "0"%char.

(** the double quote *)
Definition dquote : ascii := ascii_of_nat 34.

(** one character of [repr(s)] inside the quote [q]; bytes from 128 on are
    parts of encoded characters and are kept as they are *)
Definition repr_char (q c : ascii) : string :=
  let n := nat_of_ascii c in
  if Ascii.eqb c q || Ascii.eqb c "\" then String "\" (String c EmptyString)
  else if (n =? 9)%nat then "\t"
  else if (n =? 10)%nat then "\n"
  else if (n =? 13)%nat then "\r"
  else if ((n <? 32) || (n =? 127))%nat
       then String "\" (String "x" (String (hex_nibble (n / 16))
                                            (String (hex_nibble (n mod 16)) EmptyString)))
  else String c EmptyString.

Fixpoint repr_go (q : ascii) (s : string) : string :=
  match s with
  | EmptyString => String q EmptyString
  | String c s' => repr_char q c +:+ repr_go q s'
  end.

(** [repr(s)]: single quotes, unless the text has a single quote and no
    double quote *)
Definition repr (s : string) : string :=
  let q := if has "'" s && negb (has dquote s) then dquote else "'"%char in
  String q (repr_go q s).

(** [str(n)] for a natural number *)
Definition of_nat (n : nat) : string := NilZero.string_of_uint (Nat.to_uint n).

(** [s.zfill(w)] *)
Definition zfill (w : nat) (s : string) : string :=
  String.concat "" (repeat "0" (w - String.length s)) +:+ s.

End str.

(** ** [uuid.uuid4()] : a 128-bit integer, printed by [.hex] as 32 lowercase
    hexadecimal digits, most significant first *)

Module uuid.

Definition UUID := Z.

Definition hex_digit (d : Z) : ascii :=
  nth (Z.to_nat d)
      ["0"; "1"; "2"; "3"; "4"; "5"; "6"; "7";
       "8"; "9"; "a"; "b"; "c"; "d"; "e"; "f"]%char "0"%char.

(** the [i]-th nibble of [u], counted from the least significant *)
Definition nibble (u : UUID) (i : nat) : Z :=
  Z.land (Z.shiftr u (4 * Z.of_nat i)) 15%Z.

(** ['%032x' % u] *)
Definition hex (u : UUID) : string :=
  string_of_list_ascii (map (fun i => hex_digit (nibble u i)) (rev (seq 0 32))).

End uuid.

(** ** [datetime] and [strftime] *)

Record datetime := {
  year : nat;
  month : nat;
  day : nat;
  hour : nat;
  minute : nat;
  second : nat;
  microsecond : nat;
  (** [tzinfo]: [None] for a naive value, otherwise the offset from UTC in
      seconds (east positive) *)
  tzinfo : option Z
}.

Definition month_name (m : nat) : string :=
  nth (m - 1)
      ["January"; "February"; "March"; "April"; "May"; "June"; "July";
       "August"; "September"; "October"; "November"; "December"] "".

(** The conversion specifiers the source uses (C locale, C library of
    Linux): [%Y] is the year in decimal without padding, the other numbers
    are padded to two digits. *)
Definition directive (d : datetime) (c : ascii) : string :=
  match c with
  | "B"%char => month_name (month d)
  | "d"%char => str.zfill 2 (str.of_nat (day d))
  | "m"%char => str.zfill 2 (str.of_nat (month d))
  | "Y"%char => str.of_nat (year d)
  | "H"%char => str.zfill 2 (str.of_nat (hour d))
  | "M"%char => str.zfill 2 (str.of_nat (minute d))
  | "S"%char => str.zfill 2 (str.of_nat (second d))
  | "%"%char => "%"
  | _ => String "%" (String c "")
  end.

(** [d.strftime(fmt)]: the fields of [d] are printed as they are; no
    conversion between time zones takes place. *)
Fixpoint strftime (d : datetime) (fmt : string) : string :=
  match fmt with
  | EmptyString => EmptyString
  | String "%" (String c rest) => directive d c +:+ strftime d rest
  | String c rest => String c (strftime d rest)
  end.

(** ** The file system

    A location is the list of its path components, innermost first; the
    root is [[]]. [nodes] holds the entries below the root. A path handed
    to the system must be free of NUL, shorter than [PATH_MAX] and made of
    components of at most [NAME_MAX] bytes (the limits of Linux). Symbolic
    links, permissions and device faults are outside the model. *)

Definition bytes := list Byte.byte.

Inductive node :=
| File (content : bytes)
| Dir.

Record FileSystem := {
  nodes : gmap (list string) node;
  cwd : list string
}.

Module os.

Definition is_dir (fs : FileSystem) (l : list string) : bool :=
  match l with
  | [] => true
  | _ => match nodes fs !! l with Some Dir => true | _ => false end
  end.

Definition is_entry (fs : FileSystem) (l : list string) : bool :=
  match l with
  | [] => true
  | _ => match nodes fs !! l with Some _ => true | None => false end
  end.

(** one component of a path, followed from the directory [l] *)
Definition enter (l : list string) (c : string) : list string :=
  if decide (c = "" ∨ c = ".") then l
  else if decide (c = "..") then tail l
  else c :: l.

(** path resolution: every component is followed from a directory *)
Fixpoint walk (fs : FileSystem) (l : list string) (cs : list string)
  : option (list string) :=
  match cs with
  | [] => Some l
  | c :: cs' => if is_dir fs l then walk fs (enter l c) cs' else None
  end.

Definition resolve (fs : FileSystem) (path : string) : option (list string) :=
  match path with
  | EmptyString => None
  | _ =>
      walk fs (if str.startswith path "/" then [] else cwd fs)
              (str.split "/" path)
  end.

Definition NAME_MAX : nat := 255.
Definition PATH_MAX : nat := 4096.

(** the path is one the system accepts *)
Definition path_ok (path : string) : bool :=
  str.lacks Ascii.zero path
  && (String.length path <? PATH_MAX)%nat
  && forallb (λ c, (String.length c <=? NAME_MAX)%nat) (str.split "/" path).

(** [open(path, 'wb')], write [data], close *)
Definition write_file (fs : FileSystem) (path : string) (data : bytes)
  : option FileSystem :=
  if path_ok path then
    match resolve fs path with
    | Some l =>
        if is_dir fs l then None
        else Some {| nodes := <[l := File data]> (nodes fs); cwd := cwd fs |}
    | None => None
    end
  else None.

(** the content of the regular file at [path] *)
Definition read_file (fs : FileSystem) (path : string) : option bytes :=
  if path_ok path then
    match resolve fs path with
    | Some (c :: l) =>
        match nodes fs !! (c :: l) with Some (File b) => Some b | _ => None end
    | _ => None
    end
  else None.

Inductive errno := ENOENT | ENOTDIR | EISDIR | ENAMETOOLONG.

Definition errno_code (e : errno) : nat :=
  match e with ENOENT => 2 | ENOTDIR => 20 | EISDIR => 21 | ENAMETOOLONG => 36 end.

Definition strerror (e : errno) : string :=
  match e with
  | ENOENT => "No such file or directory"
  | ENOTDIR => "Not a directory"
  | EISDIR => "Is a directory"
  | ENAMETOOLONG => "File name too long"
  end.

(** the error that stops the resolution of the components [cs] from [l] *)
Fixpoint walk_errno (fs : FileSystem) (l : list string) (cs : list string)
  : option errno :=
  match cs with
  | [] => None
  | c :: cs' =>
      if is_dir fs l then
        if (NAME_MAX <? String.length c)%nat then Some ENAMETOOLONG
        else walk_errno fs (enter l c) cs'
      else Some (if is_entry fs l then ENOTDIR else ENOENT)
  end.

(** the error of an [open(path, 'wb')] that fails on a path without NUL *)
Definition open_errno (fs : FileSystem) (path : string) : errno :=
  if (PATH_MAX <=? String.length path)%nat then ENAMETOOLONG
  else match path with
       | EmptyString => ENOENT
       | _ =>
           match walk_errno fs (if str.startswith path "/" then [] else cwd fs)
                            (str.split "/" path) with
           | Some e => e
           | None => EISDIR
           end
       end.

(** [os.makedirs(path, exist_ok=True)] for a path of one component: [None]
    when it raises *)
Definition makedirs (fs : FileSystem) (path : string) : option FileSystem :=
  match resolve fs path with
  | Some l =>
      if is_dir fs l then Some fs
      else if is_entry fs l then None
      else Some {| nodes := <[l := Dir]> (nodes fs); cwd := cwd fs |}
  | None => None
  end.

Module path.

(** [os.path.join(a, b)] (POSIX) *)
Definition join (a b : string) : string :=
  if str.startswith b "/" then b
  else if decide (a = "") then b
  else if String.prefix "/" (String.rev a) then a +:+ b
  else a +:+ "/" +:+ b.

(** [os.path.exists(path)]: false also when the system refuses the path *)
Definition exists_ (fs : FileSystem) (path : string) : bool :=
  if path_ok path then
    match resolve fs path with
    | Some l => is_entry fs l
    | None => false
    end
  else false.

End path.

End os.

(** ** Configuration and brand colours *)

Inductive Color :=
| HexColor (code : string)
| black
| white.

Definition PDF_STORAGE_DIR : string := "generated_pdfs".

Definition VAULT_GREEN : Color := HexColor "#1e8449".
Definition VAULT_LIGHT_GREEN : Color := HexColor "#c8e6c9".
Definition VAULT_BLACK : Color := black.
Definition VAULT_WHITE : Color := white.
Definition VAULT_GRAY : Color := HexColor "#f5f5f5".

Definition inch : Q := 72.
Definition letter : Q * Q := (612, 792)%Q.

(** ** The request and response models *)

Record AffidavitRequest := {
  sender : string;
  receiver : string;
  amount : float;
  currency : string;
  date : datetime;
  transactionId : string;
  notes : option string
}.

Record AffidavitResponse := {
  pdfUrl : string;
  filename : string
}.

Inductive exn := Exception (msg : string).

Definition str_exn (e : exn) : string := let 'Exception m := e in m.

Record HTTPException := {
  status_code : nat;
  detail : string
}.

(** [FileResponse(path, media_type=..., filename=...)] as the client receives
    it: the bytes of the file and the two headers *)
Record FileResponse := {
  body : bytes;
  media_type : string;
  download_name : string
}.

(** ** Flowables of the layout engine *)

Inductive alignment := TA_LEFT | TA_CENTER | TA_RIGHT.

Record ParagraphStyle := {
  style_name : string;
  parent : string;
  textColor : option Color;
  fontSize : Q;
  style_alignment : option alignment;
  spaceAfter : Q
}.

Inductive cmd_arg :=
| AColor (c : Color)
| AText (s : string)
| ANum (q : Q).

(** one command of a [TableStyle]: name, first cell, last cell (column, row;
    [-1] is the last one), arguments *)
Record TableCmd := {
  cmd : string;
  cell_from : Z * Z;
  cell_to : Z * Z;
  cmd_args : list cmd_arg
}.

Inductive Flowable :=
| Spacer (width height : Q)
| Paragraph (text : string) (style : ParagraphStyle)
| Table (data : list (list string)) (colWidths : list Q) (style : list TableCmd).

Record SimpleDocTemplate := {
  doc_filename : string;
  pagesize : Q * Q;
  rightMargin : Q;
  leftMargin : Q;
  topMargin : Q;
  bottomMargin : Q
}.

Definition doc_width (doc : SimpleDocTemplate) : Q :=
  fst (pagesize doc) - leftMargin doc - rightMargin doc.
Definition doc_height (doc : SimpleDocTemplate) : Q :=
  snd (pagesize doc) - topMargin doc - bottomMargin doc.

(** ** The canvas

    The graphics state is what [saveState] pushes and [restoreState] pops;
    every drawing call appends to the page content together with the state
    it was drawn in. *)

Inductive Xform :=
| Translate (dx dy : Q)
| Rotate (theta : Q).

Record GState := {
  fillColor : Color;
  strokeColor : Color;
  fontName : string;
  fontSize_ : Q;
  lineWidth : Q;
  ctm : list Xform
}.

Inductive DrawOp :=
| DrawRect (x y w h : Q) (fill stroke : bool)
| DrawString (x y : Q) (text : string)
| DrawCentredString (x y : Q) (text : string).

Record Canvas := {
  gstate : GState;
  stateStack : list GState;
  content : list (GState * DrawOp)
}.

Inductive CanvasCall :=
| saveState
| restoreState
| setFillColor (c : Color)
| setStrokeColor (c : Color)
| setFont (psfontname : string) (size : Q)
| setLineWidth (w : Q)
| translate (dx dy : Q)
| rotate (theta : Q)
| rect (x y w h : Q) (fill stroke : bool)
| drawString (x y : Q) (text : string)
| drawCentredString (x y : Q) (text : string).

Definition with_gstate (c : Canvas) (g : GState) : Canvas :=
  {| gstate := g; stateStack := stateStack c; content := content c |}.

Definition draw (c : Canvas) (op : DrawOp) : Canvas :=
  {| gstate := gstate c; stateStack := stateStack c;
     content := content c ++ [(gstate c, op)] |}.

(** the effect of one call that completes; [restoreState] on an empty stack
    raises *)
Definition exec (k : CanvasCall) (c : Canvas) : option Canvas :=
  let g := gstate c in
  match k with
  | saveState =>
      Some {| gstate := g; stateStack := g :: stateStack c; content := content c |}
  | restoreState =>
      match stateStack c with
      | g' :: st => Some {| gstate := g'; stateStack := st; content := content c |}
      | [] => None
      end
  | setFillColor col =>
      Some (with_gstate c {| fillColor := col; strokeColor := strokeColor g;
                             fontName := fontName g; fontSize_ := fontSize_ g;
                             lineWidth := lineWidth g; ctm := ctm g |})
  | setStrokeColor col =>
      Some (with_gstate c {| fillColor := fillColor g; strokeColor := col;
                             fontName := fontName g; fontSize_ := fontSize_ g;
                             lineWidth := lineWidth g; ctm := ctm g |})
  | setFont f sz =>
      Some (with_gstate c {| fillColor := fillColor g; strokeColor := strokeColor g;
                             fontName := f; fontSize_ := sz;
                             lineWidth := lineWidth g; ctm := ctm g |})
  | setLineWidth lw =>
      Some (with_gstate c {| fillColor := fillColor g; strokeColor := strokeColor g;
                             fontName := fontName g; fontSize_ := fontSize_ g;
                             lineWidth := lw; ctm := ctm g |})
  | translate dx dy =>
      Some (with_gstate c {| fillColor := fillColor g; strokeColor := strokeColor g;
                             fontName := fontName g; fontSize_ := fontSize_ g;
                             lineWidth := lineWidth g;
                             ctm := Translate dx dy :: ctm g |})
  | rotate th =>
      Some (with_gstate c {| fillColor := fillColor g; strokeColor := strokeColor g;
                             fontName := fontName g; fontSize_ := fontSize_ g;
                             lineWidth := lineWidth g;
                             ctm := Rotate th :: ctm g |})
  | rect x y w h f s => Some (draw c (DrawRect x y w h f s))
  | drawString x y t => Some (draw c (DrawString x y t))
  | drawCentredString x y t => Some (draw c (DrawCentredString x y t))
  end.

(** Canvas code runs in a state monad with exceptions: a statement that
    raises ends the routine, and the canvas stays as the statements before it
    left it. *)
Definition CanvasM (A : Type) : Type := Canvas → Canvas * result exn A.

#[global] Instance CanvasM_ret : MRet CanvasM := λ A a c, (c, Ok a).

#[global] Instance CanvasM_bind : MBind CanvasM := λ A B f m c,
  match m c with
  | (c', Ok a) => f a c'
  | (c', Raise e) => (c', Raise e)
  end.

(** [fault k c] tells whether the call [k], made on the canvas [c], raises for
    a reason of its own (on a sound canvas it never does). *)
Definition call (fault : CanvasCall → Canvas → bool) (k : CanvasCall) : CanvasM unit :=
  fun c =>
    if fault k c then (c, Raise (Exception "canvas call failed"))
    else match exec k c with
         | Some c' => (c', Ok tt)
         | None => (c, Raise (Exception "pop from empty list"))
         end.

Definition PageCallback : Type := datetime → SimpleDocTemplate → CanvasM unit.

(** ** What the program takes from its surroundings

    The process environment, Python's printing of a [float], the faults of the
    canvas, and the rendering backend ([doc.build]) that paginates the
    flowables, calls the page callbacks and yields the bytes of the document
    or raises. *)
Class Runtime := {
  environ : gmap string string;
  float_str : float → string;
  canvas_fault : CanvasCall → Canvas → bool;
  build : SimpleDocTemplate → list Flowable → PageCallback → PageCallback →
          result exn bytes
}.

Section App.

Context `{Runtime}.

Local Open Scope Q_scope.

(** [API_KEY = os.environ.get("API_KEY", "your-development-api-key")] *)
Definition API_KEY : string :=
  default "your-development-api-key" (environ !! "API_KEY").

(** ** The API-key dependency

    [authorization] is the value of the Authorization header. The header is
    declared as required, so the function is only called with a value. *)
Definition verify_api_key (authorization : string) : result HTTPException string :=
  if negb (str.startswith authorization "Bearer ") then
    Raise {| status_code := 401; detail := "Invalid authorization header format" |}
  else
    let token := str.replace authorization "Bearer " "" in
    if negb (String.eqb token API_KEY) then
      Raise {| status_code := 401; detail := "Invalid API key" |}
    else Ok token.

(** ** The page decorator *)
Definition add_page_elements : PageCallback := λ now doc,
  let canvas := call canvas_fault in
  (* Save state *)
  canvas saveState ;;
  (* green header bar *)
  canvas (setFillColor VAULT_GREEN) ;;
  canvas (rect 0
               (doc_height doc + topMargin doc - 0.5 * inch)
               (doc_width doc + leftMargin doc + rightMargin doc)
               (0.5 * inch)
               true false) ;;
  (* logo text in the header *)
  canvas (setFillColor VAULT_WHITE) ;;
  canvas (setFont "Helvetica-Bold" 16) ;;
  canvas (drawString (leftMargin doc)
                     (doc_height doc + topMargin doc - 0.3 * inch)
                     "VAULT") ;;
  (* diagonal watermark *)
  canvas (setFont "Helvetica-Bold" 80) ;;
  canvas (setFillColor VAULT_LIGHT_GREEN) ;;
  canvas saveState ;;
  canvas (translate (doc_width doc / 2 + leftMargin doc) (doc_height doc / 2)) ;;
  canvas (rotate 45) ;;
  canvas (drawCentredString 0 0 "VAULT") ;;
  canvas restoreState ;;
  (* footer *)
  canvas (setFillColor VAULT_GREEN) ;;
  canvas (rect 0
               (bottomMargin doc - 0.4 * inch)
               (doc_width doc + leftMargin doc + rightMargin doc)
               (0.3 * inch)
               true false) ;;
  (* footer text *)
  canvas (setFillColor VAULT_WHITE) ;;
  canvas (setFont "Helvetica" 8) ;;
  canvas (drawCentredString
            (doc_width doc / 2 + leftMargin doc)
            (bottomMargin doc - 0.25 * inch)
            ("VAULT Financial | Transaction Record | Generated on "
               +:+ strftime now "%Y-%m-%d %H:%M:%S")) ;;
  (* thin green border around the page *)
  canvas (setStrokeColor VAULT_GREEN) ;;
  canvas (setLineWidth 0.5) ;;
  canvas (rect (leftMargin doc - 10)
               (bottomMargin doc - 0.5 * inch)
               (doc_width doc + 20)
               (doc_height doc + topMargin doc + 0.5 * inch)
               false true) ;;
  canvas restoreState.

(** ** The layout engine *)

Definition title_style : ParagraphStyle :=
  {| style_name := "VaultTitle"; parent := "Heading1";
     textColor := Some VAULT_GREEN; fontSize := 16;
     style_alignment := Some TA_CENTER; spaceAfter := 12 |}.

Definition subtitle_style : ParagraphStyle :=
  {| style_name := "VaultSubtitle"; parent := "Heading2";
     textColor := Some VAULT_BLACK; fontSize := 14;
     style_alignment := Some TA_CENTER; spaceAfter := 12 |}.

Definition normal_style : ParagraphStyle :=
  {| style_name := "VaultNormal"; parent := "Normal";
     textColor := None; fontSize := 10;
     style_alignment := None; spaceAfter := 6 |}.

Definition tcmd (name : string) (c0 r0 c1 r1 : Z) (args : list cmd_arg) : TableCmd :=
  {| cmd := name; cell_from := (c0, r0); cell_to := (c1, r1); cmd_args := args |}.

Definition transaction_table_style : list TableCmd :=
  [ tcmd "BACKGROUND" 0 0 0 (-1) [AColor VAULT_GREEN];
    tcmd "TEXTCOLOR" 0 0 0 (-1) [AColor VAULT_WHITE];
    tcmd "ALIGN" 0 0 0 (-1) [AText "LEFT"];
    tcmd "FONTNAME" 0 0 0 (-1) [AText "Helvetica-Bold"];
    tcmd "FONTSIZE" 0 0 0 (-1) [ANum 10];
    tcmd "BOTTOMPADDING" 0 0 (-1) (-1) [ANum 10];
    tcmd "TOPPADDING" 0 0 (-1) (-1) [ANum 10];
    tcmd "BACKGROUND" 1 0 1 (-1) [AColor VAULT_WHITE];
    tcmd "TEXTCOLOR" 1 0 1 (-1) [AColor VAULT_BLACK];
    tcmd "FONTNAME" 1 0 1 (-1) [AText "Helvetica"];
    tcmd "GRID" 0 0 (-1) (-1) [ANum 0.5; AColor VAULT_GREEN];
    tcmd "BOX" 0 0 (-1) (-1) [ANum 1; AColor VAULT_GREEN] ].

Definition verification_table_style : list TableCmd :=
  [ tcmd "BACKGROUND" 0 0 0 (-1) [AColor VAULT_LIGHT_GREEN];
    tcmd "TEXTCOLOR" 0 0 0 (-1) [AColor VAULT_BLACK];
    tcmd "ALIGN" 0 0 0 (-1) [AText "LEFT"];
    tcmd "FONTNAME" 0 0 0 (-1) [AText "Helvetica-Bold"];
    tcmd "BACKGROUND" 1 0 1 (-1) [AColor VAULT_WHITE];
    tcmd "TEXTCOLOR" 1 0 1 0 [AColor VAULT_GREEN];
    tcmd "FONTNAME" 1 0 1 0 [AText "Helvetica-Bold"];
    tcmd "BOX" 0 0 (-1) (-1) [ANum 0.5; AColor VAULT_GREEN];
    tcmd "GRID" 0 0 (-1) (-1) [ANum 0.5; AColor VAULT_LIGHT_GREEN] ].

(** [if data.notes:] *)
Definition truthy (o : option string) : bool :=
  match o with
  | Some EmptyString => false
  | Some _ => true
  | None => false
  end.

(** the rows of the transaction details table *)
Definition transaction_data (data : AffidavitRequest) : list (list string) :=
  let transaction_date := strftime (date data) "%B %d, %Y at %H:%M:%S UTC" in
  let rows :=
    [ ["Transaction ID"; "#" +:+ transactionId data];
      ["Date"; transaction_date];
      ["Sender"; sender data];
      ["Receiver"; receiver data];
      ["Amount"; float_str (amount data) +:+ " " +:+ currency data] ] in
  if truthy (notes data)
  then rows ++ [["Notes"; default "" (notes data)]]
  else rows.

(** the rows of the verification box; [u] is the UUID drawn for it *)
Definition verification_data (u : uuid.UUID) : list (list string) :=
  [ ["Verification Status:"; "VERIFIED"];
    ["Security Hash:"; str.upper (str.take 12 (uuid.hex u))];
    ["Platform:"; "VAULT Financial"] ].

(** the content elements, in the order the source appends them *)
Definition elements (data : AffidavitRequest) (u : uuid.UUID) (now : datetime)
  : list Flowable :=
  [ Spacer 1 (0.25 * inch);
    Paragraph "TRANSACTION AFFIDAVIT" title_style;
    Spacer 1 (0.25 * inch);
    Paragraph
      ("This document certifies that a transaction has been securely recorded on the "
         +:+ "VAULT Financial platform with the following details:")
      normal_style;
    Spacer 1 (0.25 * inch);
    Table (transaction_data data) [2 * inch; 3.5 * inch] transaction_table_style;
    Spacer 1 (0.4 * inch);
    Paragraph
      ("This affidavit certifies that the above transaction has been securely recorded in the VAULT "
         +:+ "system. This document serves as an official record of the transaction.")
      normal_style;
    Spacer 1 (0.2 * inch);
    Paragraph
      ("Digitally verified and generated on "
         +:+ strftime now "%B %d, %Y at %H:%M:%S" +:+ ".")
      normal_style;
    Spacer 1 (0.3 * inch);
    Table (verification_data u) [2 * inch; 3.5 * inch] verification_table_style ].

(** ** The world of the handlers

    The file system together with a log of what a request did to it and to
    the layout engine, most recent first. *)

Inductive effect :=
| Composed (filepath : string)
| Wrote (filepath : string)
| Stat (filepath : string)
| Streamed (filepath : string).

Record World := {
  fs : FileSystem;
  effects : list effect
}.

Definition log (e : effect) (w : World) : World :=
  {| fs := fs w; effects := e :: effects w |}.

(** [OSError(errno, strerror, filename)], whose text is
    [[Errno n] strerror: 'filename'] *)
Definition OSError (e : os.errno) (filepath : string) : exn :=
  Exception ("[Errno " +:+ str.of_nat (os.errno_code e) +:+ "] " +:+ os.strerror e
               +:+ ": " +:+ str.repr filepath).

(** the exception of an [open(filepath, 'wb')] that fails *)
Definition open_error (fs0 : FileSystem) (filepath : string) : exn :=
  if str.has Ascii.zero filepath then Exception "embedded null byte"
  else OSError (os.open_errno fs0 filepath) filepath.

(** [create_affidavit_pdf(filepath, data)]: [u] is the UUID drawn for the
    security hash and [now] the reading of the clock. [doc.build] renders
    the elements and then writes the file. *)
Definition create_affidavit_pdf (w : World) (filepath : string)
    (data : AffidavitRequest) (u : uuid.UUID) (now : datetime)
  : World * result exn unit :=
  let doc := {| doc_filename := filepath; pagesize := letter;
                rightMargin := 72; leftMargin := 72;
                topMargin := 90; bottomMargin := 72 |} in
  let w1 := log (Composed filepath) w in
  match build doc (elements data u now) add_page_elements add_page_elements with
  | Raise e => (w1, Raise e)
  | Ok pdf =>
      match os.write_file (fs w1) filepath pdf with
      | Some fs' => (log (Wrote filepath) {| fs := fs'; effects := effects w1 |}, Ok tt)
      | None => (w1, Raise (open_error (fs w1) filepath))
      end
  end.

(** the generated file name; [u] is the UUID drawn for it *)
Definition affidavit_filename (request : AffidavitRequest) (u : uuid.UUID) : string :=
  "VAULT_Affidavit_" +:+ transactionId request +:+ "_"
    +:+ str.take 8 (uuid.hex u) +:+ ".pdf".

(** [POST /generate-affidavit]. The dependency [verify_api_key] runs first;
    when it raises, the body of the handler is not entered. *)
Definition generate_affidavit (w : World) (authorization : string)
    (request : AffidavitRequest) (u_name u_hash : uuid.UUID) (now : datetime)
  : World * result HTTPException AffidavitResponse :=
  match verify_api_key authorization with
  | Raise e => (w, Raise e)
  | Ok api_key =>
      let filename := affidavit_filename request u_name in
      let filepath := os.path.join PDF_STORAGE_DIR filename in
      match create_affidavit_pdf w filepath request u_hash now with
      | (w', Ok _) =>
          let pdf_url := "/download-affidavit/" +:+ filename in
          (w', Ok {| pdfUrl := pdf_url; filename := filename |})
      | (w', Raise e) =>
          (w', Raise {| status_code := 500;
                        detail := "PDF generation failed: " +:+ str_exn e |})
      end
  end.

(** The body of the handler of [GET /download-affidavit/{filename}], for
    the [filename] the route delivers (see [retrieve]). Sending a
    [FileResponse] for a path that is not a regular file fails in the server
    (status 500). *)
Definition download_affidavit (w : World) (authorization : string)
    (filename : string)
  : World * result HTTPException FileResponse :=
  match verify_api_key authorization with
  | Raise e => (w, Raise e)
  | Ok api_key =>
      let filepath := os.path.join PDF_STORAGE_DIR filename in
      let w1 := log (Stat filepath) w in
      if negb (os.path.exists_ (fs w1) filepath) then
        (w1, Raise {| status_code := 404; detail := "PDF not found" |})
      else
        let w2 := log (Streamed filepath) w1 in
        match os.read_file (fs w2) filepath with
        | Some b =>
            (w2, Ok {| body := b; media_type := "application/pdf";
                       download_name := filename |})
        | None =>
            (w2, Raise {| status_code := 500; detail := "Internal Server Error" |})
        end
  end.

(** The route [/download-affidavit/{filename}]: the parameter binds one
    path segment, that is a non-empty text without a slash. [name] is what
    follows [/download-affidavit/] in the path of the request. *)
Definition route_filename (name : string) : option string :=
  if negb (String.eqb name "") && str.lacks "/" name then Some name else None.

(** [GET /download-affidavit/<name>] as the service answers it: a path that
    the route does not match is answered by the router, before any
    dependency runs. *)
Definition retrieve (w : World) (authorization : string) (name : string)
  : World * result HTTPException FileResponse :=
  match route_filename name with
  | Some filename => download_affidavit w authorization filename
  | None => (w, Raise {| status_code := 404; detail := "Not Found" |})
  end.

(** ** Requests in sequence *)

Inductive Request :=
| Generate (authorization : string) (request : AffidavitRequest)
           (u_name u_hash : uuid.UUID) (now : datetime)
| Retrieve (authorization : string) (name : string).

Inductive Response :=
| Generated (r : result HTTPException AffidavitResponse)
| Retrieved (r : result HTTPException FileResponse).

Definition handle (w : World) (rq : Request) : World * Response :=
  match rq with
  | Generate a r u1 u2 now =>
      let '(w', res) := generate_affidavit w a r u1 u2 now in (w', Generated res)
  | Retrieve a f =>
      let '(w', res) := retrieve w a f in (w', Retrieved res)
  end.

Fixpoint serve (w : World) (rqs : list Request) : World * list Response :=
  match rqs with
  | [] => (w, [])
  | rq :: rqs' =>
      let '(w1, r) := handle w rq in
      let '(w2, rs) := serve w1 rqs' in
      (w2, r :: rs)
  end.

(** the file names that the [Generate] calls of a run returned *)
Definition produced (rs : list Response) : list string :=
  omap (λ r, match r with
             | Generated (Ok ref) => Some (filename ref)
             | _ => None
             end) rs.

(** module start: [os.makedirs(PDF_STORAGE_DIR, exist_ok=True)] *)
Definition startup (fs0 : FileSystem) : option World :=
  match os.makedirs fs0 PDF_STORAGE_DIR with
  | Some fs1 => Some {| fs := fs1; effects := [] |}
  | None => None
  end.

(** the location of the storage directory *)
Definition storage (fs0 : FileSystem) : list string :=
  PDF_STORAGE_DIR :: cwd fs0.

End App.

(** ** Notions used to state the properties *)

Definition is_upper_hex (c : ascii) : bool :=
  existsb (Ascii.eqb c) (list_ascii_of_string "0123456789ABCDEF").

Definition is_lower_hex (c : ascii) : bool :=
  existsb (Ascii.eqb c) (list_ascii_of_string "0123456789abcdef").

(** a file name that is one ordinary path component *)
Definition plain_name (f : string) : Prop :=
  str.lacks "/" f = true ∧ f ≠ "" ∧ f ≠ "." ∧ f ≠ "..".

(** [old] occurs somewhere in [s] *)
Fixpoint occurs (old s : string) : bool :=
  String.prefix old s ||
  match s with
  | EmptyString => false
  | String _ s' => occurs old s'
  end.

(** Days from 1970-01-01 to a date of the proleptic Gregorian calendar. *)
Definition days_from_civil (y m d : Z) : Z :=
  (let y' := if m <=? 2 then y - 1 else y in
   let era := y' / 400 in
   let yoe := y' - era * 400 in
   let mp := if m <=? 2 then m + 9 else m - 3 in
   let doy := (153 * mp + 2) / 5 + d - 1 in
   let doe := yoe * 365 + yoe / 4 - yoe / 100 + doy in
   era * 146097 + doe - 719468)%Z.

(** The instant a [datetime] denotes, in seconds since the epoch: its fields
    are local to its offset, and a value without an offset counts as UTC. *)
Definition utc_instant (d : datetime) : Z :=
  (days_from_civil (Z.of_nat (year d)) (Z.of_nat (month d)) (Z.of_nat (day d)) * 86400
   + Z.of_nat (hour d) * 3600 + Z.of_nat (minute d) * 60 + Z.of_nat (second d)
   - default 0 (tzinfo d))%Z.

(** The reading a reader takes from a row that prints the fields of [d]
    followed by the label UTC. *)
Definition read_as_utc (d : datetime) : datetime :=
  {| year := year d; month := month d; day := day d;
     hour := hour d; minute := minute d; second := second d;
     microsecond := microsecond d; tzinfo := Some 0%Z |}.

(** the bytes [doc.build] yields in [create_affidavit_pdf filepath data] *)
Definition rendered `{Runtime} (filepath : string) (data : AffidavitRequest)
    (u : uuid.UUID) (now : datetime) : result exn bytes :=
  build {| doc_filename := filepath; pagesize := letter;
           rightMargin := 72; leftMargin := 72;
           topMargin := 90; bottomMargin := 72 |}
        (elements data u now) add_page_elements add_page_elements.


(** the header [a] passes the API key check *)
Definition authorized `{Runtime} (a : string) : Prop :=
  verify_api_key a = Ok API_KEY.

(** The storage directory holds nothing but regular files, each under a name
    of [names]. *)
Definition storage_inv (fs0 : FileSystem) (names : list string) : Prop :=
  os.is_dir fs0 (cwd fs0) = true ∧
  os.is_dir fs0 (storage fs0) = true ∧
  ∀ name n, nodes fs0 !! (name :: storage fs0) = Some n →
            (∃ b, n = File b) ∧ name ∈ names.

(** ** A small runtime, to run the model on concrete inputs *)

Definition cells (e : Flowable) : list string :=
  match e with
  | Spacer _ _ => []
  | Paragraph t _ => [t]
  | Table rows _ _ => concat rows
  end.

(** a stand-in for the rendering backend: the text of the flowables *)
Definition plain_build (doc : SimpleDocTemplate) (els : list Flowable)
    (onFirstPage onLaterPages : PageCallback) : result exn bytes :=
  Ok (list_byte_of_string (String.concat "|" (concat (map cells els)))).

Definition demo_runtime : Runtime :=
  {| environ := ∅;
     float_str := λ _, "100.5";
     canvas_fault := λ _ _, false;
     build := plain_build |}.

(** the same, with a secret that contains the scheme word *)
Definition odd_key_runtime : Runtime :=
  {| environ := {["API_KEY" := "my Bearer key"]};
     float_str := λ _, "100.5";
     canvas_fault := λ _ _, false;
     build := plain_build |}.

(** the same, with a canvas whose centred text fails *)
Definition faulty_runtime : Runtime :=
  {| environ := ∅;
     float_str := λ _, "100.5";
     canvas_fault := λ k _, match k with drawCentredString _ _ _ => true | _ => false end;
     build := plain_build |}.

Definition demo_date : datetime :=
  {| year := 2024; month := 1; day := 15; hour := 10; minute := 30; second := 0;
     microsecond := 0; tzinfo := Some 0%Z |}.

(** [2024-01-15T10:30:00+05:30] *)
Definition offset_date : datetime :=
  {| year := 2024; month := 1; day := 15; hour := 10; minute := 30; second := 0;
     microsecond := 0; tzinfo := Some 19800%Z |}.

Definition demo_now : datetime :=
  {| year := 2024; month := 1; day := 15; hour := 10; minute := 31; second := 7;
     microsecond := 0; tzinfo := None |}.

Definition demo_request : AffidavitRequest :=
  {| sender := "Alice"; receiver := "Bob"; amount := 100.5%float;
     currency := "USD"; date := demo_date; transactionId := "TX123";
     notes := None |}.

Definition with_id (r : AffidavitRequest) (tid : string) : AffidavitRequest :=
  {| sender := sender r; receiver := receiver r; amount := amount r;
     currency := currency r; date := date r; transactionId := tid;
     notes := notes r |}.

Definition demo_key : string := "Bearer your-development-api-key".

(** a deployment: the program lives in [/srv/app], next to its source file *)
Definition demo_fs : FileSystem :=
  {| nodes := {[ ["srv"] := Dir;
                 ["app"; "srv"] := Dir;
                 ["app.py"; "app"; "srv"] := File (list_byte_of_string "import os") ]};
     cwd := ["app"; "srv"] |}.

Definition demo_world : World :=
  {| fs := {| nodes := <[ ["generated_pdfs"; "app"; "srv"] := Dir ]> (nodes demo_fs);
              cwd := cwd demo_fs |};
     effects := [] |}.

(** the same deployment with a directory [VAULT_Affidavit_] inside the
    storage directory *)
Definition nested_world : World :=
  {| fs := {| nodes := <[ ["VAULT_Affidavit_"; "generated_pdfs"; "app"; "srv"] := Dir ]>
                         (nodes (fs demo_world));
              cwd := cwd demo_fs |};
     effects := [] |}.

(** the same deployment with a file that was in the storage directory before
    the service started *)
Definition stale_world : World :=
  {| fs := {| nodes := <[ ["old.pdf"; "generated_pdfs"; "app"; "srv"]
                            := File (list_byte_of_string "%PDF-old") ]>
                         (nodes (fs demo_world));
              cwd := cwd demo_fs |};
     effects := [] |}.

Definition demo_canvas : Canvas :=
  {| gstate := {| fillColor := black; strokeColor := black;
                  fontName := "Helvetica"; fontSize_ := 12;
                  lineWidth := 1; ctm := [] |};
     stateStack := [];
     content := [] |}.

Definition demo_doc : SimpleDocTemplate :=
  {| doc_filename := "generated_pdfs/x.pdf"; pagesize := letter;
     rightMargin := 72; leftMargin := 72; topMargin := 90; bottomMargin := 72 |}.

(** ** The root route and further notions

    [GET /] needs no credential and returns a fixed JSON object. *)
Definition read_root : gmap string string :=
  {[ "message" := "VAULT PDF Generator API is running"; "status" := "OK" ]}.

(** Canvas code [m], entered with [d] states saved above a stack [base],
    keeps the page content it finds and the stack [base], and leaves [d']
    states above [base] when it completes. *)
Definition frames {A} (d d' : nat) (m : CanvasM A) : Prop :=
  ∀ c c' r pre base,
    m c = (c', r) → stateStack c = pre ++ base → length pre = d →
    content c `prefix_of` content c' ∧
    ∃ pre', stateStack c' = pre' ++ base ∧ ∀ a, r = Ok a → length pre' = d'.

(** a runtime whose rendering backend fails *)
Definition broken_build_runtime : Runtime :=
  {| environ := ∅;
     float_str := λ _, "100.5";
     canvas_fault := λ _ _, false;
     build := λ _ _ _ _, Raise (Exception "Flowable too large on page") |}.

(** a runtime whose environment sets the secret *)
Definition set_key_runtime : Runtime :=
  {| environ := {["API_KEY" := "s3cret"]};
     float_str := λ _, "100.5";
     canvas_fault := λ _ _, false;
     build := plain_build |}.

(** a canvas in use: one state saved, one drawing on the page *)
Definition busy_canvas : Canvas :=
  {| gstate := gstate demo_canvas;
     stateStack := [gstate demo_canvas];
     content := [(gstate demo_canvas, DrawString 0 0 "body")] |}.

(** an identifier of 300 bytes, and one with a NUL in it *)
Definition long_id : string := string_of_list_ascii (repeat "a"%char 300).
Definition nul_id : string := String "T" (String Ascii.zero "X").

(** * Properties *)

(** ** Worked examples of the library models *)

Example str_replace_ex : str.replace "Bearer abc" "Bearer " "" = "abc".
Proof. reflexivity. Qed.

Example str_replace_all_ex : str.replace "aXbXc" "X" "--" = "a--b--c".
Proof. reflexivity. Qed.

Example str_upper_ex : str.upper "0a9f" = "0A9F".
Proof. reflexivity. Qed.

Example str_split_ex : str.split "/" "a//b/" = ["a"; ""; "b"; ""].
Proof. reflexivity. Qed.

Example hex_ex : uuid.hex 255%Z = "000000000000000000000000000000ff".
Proof. reflexivity. Qed.

Example strftime_ex :
  strftime demo_date "%B %d, %Y at %H:%M:%S UTC" = "January 15, 2024 at 10:30:00 UTC".
Proof. reflexivity. Qed.

Example join_ex : os.path.join PDF_STORAGE_DIR "../app.py" = "generated_pdfs/../app.py".
Proof. reflexivity. Qed.

Example startup_ex : startup demo_fs = Some demo_world.
Proof. reflexivity. Qed.

Example repr_ex : str.repr "generated_pdfs/a b" = "'generated_pdfs/a b'".
Proof. reflexivity. Qed.

Example oserror_ex :
  str_exn (OSError os.ENOENT "x/y.pdf") = "[Errno 2] No such file or directory: 'x/y.pdf'".
Proof. reflexivity. Qed.

Example path_ok_ex :
  os.path_ok "generated_pdfs/x.pdf" = true ∧
  os.path_ok (os.path.join PDF_STORAGE_DIR long_id) = false ∧
  os.path_ok nul_id = false.
Proof. repeat split; vm_compute; reflexivity. Qed.

Example route_ex :
  route_filename "x.pdf" = Some "x.pdf" ∧ route_filename ".." = Some ".." ∧
  route_filename "../app.py" = None ∧ route_filename "" = None.
Proof. repeat split. Qed.

Example epoch_ex : days_from_civil 1970 1 1 = 0%Z ∧ days_from_civil 2024 1 15 = 19737%Z.
Proof. split; reflexivity. Qed.

(** ** The API key check *)

Section AuthFacts.

Context `{Runtime}.

Lemma verify_api_key_status authorization e :
  verify_api_key authorization = Raise e → status_code e = 401%nat.
Proof.
  unfold verify_api_key.
  destruct (negb (str.startswith authorization "Bearer ")); [intros [= <-]; reflexivity|].
  destruct (negb (String.eqb _ API_KEY)); [intros [= <-]; reflexivity|discriminate].
Qed.

(** what is compared with the secret is the header with every occurrence
    of the scheme word removed *)
Lemma verify_api_key_accepts authorization token :
  verify_api_key authorization = Ok token ↔
  str.startswith authorization "Bearer " = true ∧
  str.replace authorization "Bearer " "" = API_KEY ∧ token = API_KEY.
Proof.
  unfold verify_api_key.
  generalize (str.replace authorization "Bearer " ""). intros t.
  destruct (str.startswith authorization "Bearer "); simpl.
  - destruct (String.eqb_spec t API_KEY) as [He|Hne]; simpl; split.
    + intros Ht. injection Ht as Ht. subst token. auto.
    + intros (_ & _ & ->). by rewrite He.
    + discriminate.
    + intros (_ & He & _). contradiction.
  - split; [discriminate|]. by intros [? _].
Qed.

(** a rejected request leaves the world as it was: nothing is composed and
    the storage is neither read nor written *)
Lemma unauthorized_generate w authorization e request u1 u2 now :
  verify_api_key authorization = Raise e →
  generate_affidavit w authorization request u1 u2 now = (w, Raise e).
Proof. intros Hv. unfold generate_affidavit. by rewrite Hv. Qed.

Lemma unauthorized_download w authorization e f :
  verify_api_key authorization = Raise e →
  download_affidavit w authorization f = (w, Raise e).
Proof. intros Hv. unfold download_affidavit. by rewrite Hv. Qed.

Lemma replace_go_absent old new s :
  occurs old s = false → str.replace_go old new 0 s = s.
Proof.
  induction s as [|c s IH]; [reflexivity|].
  cbn [occurs str.replace_go].
  intros [Hp Ho]%orb_false_iff.
  rewrite Hp. f_equal. by apply IH.
Qed.

Lemma prefix_app p s : String.prefix p (p +:+ s) = true.
Proof.
  induction p as [|c p IH]; [by destruct s|].
  change (String c p +:+ s) with (String c (p +:+ s)). cbn [String.prefix].
  destruct (ascii_dec c c); [exact IH|congruence].
Qed.

Lemma replace_go_skip old new s1 s2 :
  str.replace_go old new (String.length s1) (s1 +:+ s2) = str.replace_go old new 0 s2.
Proof.
  induction s1 as [|c s1 IH]; [reflexivity|].
  change (String c s1 +:+ s2) with (String c (s1 +:+ s2)). exact IH.
Qed.

Lemma replace_go_prefix c p new s :
  str.replace_go (String c p) new 0 (String c p +:+ s)
  = new +:+ str.replace_go (String c p) new 0 s.
Proof.
  change (String c p +:+ s) with (String c (p +:+ s)) at 1.
  cbn [str.replace_go].
  change (String c (p +:+ s)) with (String c p +:+ s).
  rewrite prefix_app.
  replace (String.length (String c p) - 1)%nat with (String.length p)
    by (cbn [String.length]; lia).
  by rewrite replace_go_skip.
Qed.

(** the scheme word followed by the secret is accepted, provided the
    secret does not itself contain the scheme word *)
Lemma verify_api_key_exact :
  occurs "Bearer " API_KEY = false →
  verify_api_key ("Bearer " +:+ API_KEY) = Ok API_KEY.
Proof.
  intros Ho. apply verify_api_key_accepts.
  split; [apply prefix_app|]. split; [|reflexivity].
  unfold str.replace. rewrite replace_go_prefix.
  by rewrite replace_go_absent.
Qed.

(** the scheme word twice and then the secret is accepted as well *)
Lemma verify_api_key_doubled :
  occurs "Bearer " API_KEY = false →
  verify_api_key ("Bearer " +:+ "Bearer " +:+ API_KEY) = Ok API_KEY.
Proof.
  intros Ho. apply verify_api_key_accepts.
  split; [apply prefix_app|]. split; [|reflexivity].
  unfold str.replace. rewrite !replace_go_prefix.
  by rewrite replace_go_absent.
Qed.

End AuthFacts.

(** C1 (defect in the code). The header
    [Bearer Bearer your-development-api-key] carries the credential
    [Bearer your-development-api-key], which differs from the configured
    secret, and yet [verify_api_key] accepts it and generation runs:
    [str.replace] removes every occurrence of the scheme word, not only the
    leading one. For the same reason a secret that contains the scheme word
    can never be presented successfully. *)
Theorem C1_replace_strips_every_scheme_word :
  @API_KEY demo_runtime = "your-development-api-key" ∧
  @verify_api_key demo_runtime "Bearer Bearer your-development-api-key"
    = Ok "your-development-api-key" ∧
  (let run := @generate_affidavit demo_runtime demo_world
                "Bearer Bearer your-development-api-key" demo_request 1%Z 2%Z demo_now in
   run.2 = Ok {| pdfUrl := "/download-affidavit/VAULT_Affidavit_TX123_00000000.pdf";
                 filename := "VAULT_Affidavit_TX123_00000000.pdf" |} ∧
   effects run.1 = [ Wrote "generated_pdfs/VAULT_Affidavit_TX123_00000000.pdf";
                     Composed "generated_pdfs/VAULT_Affidavit_TX123_00000000.pdf" ]) ∧
  @verify_api_key odd_key_runtime ("Bearer " +:+ @API_KEY odd_key_runtime)
    = Raise {| status_code := 401; detail := "Invalid API key" |}.
Proof.
  split; [reflexivity|]. split; [reflexivity|]. split; [|reflexivity].
  split; vm_compute; reflexivity.
Qed.

(** ** The tables of the document *)

Lemma nibble_range u i : (0 ≤ uuid.nibble u i < 16)%Z.
Proof.
  unfold uuid.nibble.
  change 15%Z with (Z.ones 4). rewrite Z.land_ones by lia.
  apply Z.mod_pos_bound. reflexivity.
Qed.

Lemma hex_digit_lower d : (0 ≤ d < 16)%Z → is_lower_hex (uuid.hex_digit d) = true.
Proof.
  intros Hd.
  assert (Hn : (Z.to_nat d < 16)%nat) by lia.
  unfold uuid.hex_digit. revert Hn. generalize (Z.to_nat d). intros n Hn.
  do 16 (destruct n as [|n]; [reflexivity|]). lia.
Qed.

Lemma hex_digit_upper d :
  (0 ≤ d < 16)%Z → is_upper_hex (str.upper_char (uuid.hex_digit d)) = true.
Proof.
  intros Hd.
  assert (Hn : (Z.to_nat d < 16)%nat) by lia.
  unfold uuid.hex_digit. revert Hn. generalize (Z.to_nat d). intros n Hn.
  do 16 (destruct n as [|n]; [reflexivity|]). lia.
Qed.

Lemma hex_length u : String.length (uuid.hex u) = 32%nat.
Proof. reflexivity. Qed.

Lemma hex_take_length n u : (n ≤ 32)%nat → String.length (str.take n (uuid.hex u)) = n.
Proof.
  intros Hn. do 33 (destruct n as [|n]; [reflexivity|]). lia.
Qed.

Lemma forallb_take p n s : str.forallb p s = true → str.forallb p (str.take n s) = true.
Proof.
  revert n. induction s as [|c s IH]; intros [|n]; try reflexivity.
  cbn. intros [Hc Hs]%andb_true_iff. rewrite Hc. by apply IH.
Qed.

Lemma forallb_impl (p q : ascii → bool) s :
  (∀ c, p c = true → q c = true) → str.forallb p s = true → str.forallb q s = true.
Proof.
  intros Hpq. induction s as [|c s IH]; [done|].
  cbn. intros [Hc Hs]%andb_true_iff. by rewrite (Hpq _ Hc), IH.
Qed.

Lemma hex_lower u : str.forallb is_lower_hex (uuid.hex u) = true.
Proof.
  unfold uuid.hex. cbn [rev seq app map string_of_list_ascii str.forallb].
  rewrite !hex_digit_lower by apply nibble_range. reflexivity.
Qed.

Lemma lower_hex_no_slash c : is_lower_hex c = true → negb (Ascii.eqb c "/") = true.
Proof.
  destruct (Ascii.eqb_spec c "/") as [->|]; [discriminate|reflexivity].
Qed.

(** C6. The detail table is the sixth content element; its rows are
    Transaction ID (the identifier after a number sign), Date, Sender,
    Receiver and Amount (the number, a space, the currency), in this order,
    five rows when [notes] is absent or empty, and a sixth row Notes at the
    end when [notes] is a non-empty text. *)
Theorem C6_transaction_table_rows `{Runtime} (data : AffidavitRequest)
    (u : uuid.UUID) (now : datetime) :
  elements data u now !! 5%nat
    = Some (Table (transaction_data data) [2 * inch; 3.5 * inch]%Q transaction_table_style) ∧
  transaction_data data
    = [ ["Transaction ID"; "#" +:+ transactionId data];
        ["Date"; strftime (date data) "%B %d, %Y at %H:%M:%S UTC"];
        ["Sender"; sender data];
        ["Receiver"; receiver data];
        ["Amount"; float_str (amount data) +:+ " " +:+ currency data] ]
      ++ match notes data with
         | Some n => if decide (n = "") then [] else [["Notes"; n]]
         | None => []
         end ∧
  length (transaction_data data)
    = match notes data with
      | Some n => if decide (n = "") then 5%nat else 6%nat
      | None => 5%nat
      end.
Proof.
  split; [reflexivity|].
  unfold transaction_data.
  destruct (notes data) as [[|c n]|]; split; reflexivity.
Qed.

(** C7. The verification table is the last content element and has the three
    rows Verification Status (VERIFIED), Security Hash, Platform (VAULT
    Financial), in this order; the hash is twelve characters, each one of
    0-9 or A-F. *)
Theorem C7_verification_table_rows `{Runtime} (data : AffidavitRequest)
    (u : uuid.UUID) (now : datetime) :
  ∃ h : string,
    last (elements data u now)
      = Some (Table (verification_data u) [2 * inch; 3.5 * inch]%Q verification_table_style) ∧
    verification_data u
      = [ ["Verification Status:"; "VERIFIED"];
          ["Security Hash:"; h];
          ["Platform:"; "VAULT Financial"] ] ∧
    String.length h = 12%nat ∧
    str.forallb is_upper_hex h = true.
Proof.
  exists (str.upper (str.take 12 (uuid.hex u))).
  split; [reflexivity|]. split; [reflexivity|]. split; [reflexivity|].
  unfold uuid.hex.
  cbn [rev seq app map string_of_list_ascii str.take String.substring
       str.upper str.map_chars str.forallb].
  rewrite !hex_digit_upper by apply nibble_range. reflexivity.
Qed.

(** ** The date row *)

(** the row read as a UTC time is off from the instant of the transaction by
    the offset of the date that was submitted *)
Lemma date_row_skew d :
  (utc_instant (read_as_utc d) - utc_instant d = default 0 (tzinfo d))%Z.
Proof. unfold utc_instant, read_as_utc. simpl. lia. Qed.

(** a date without an offset, or with offset zero, is shown at its UTC time *)
Lemma date_row_exact d :
  default 0%Z (tzinfo d) = 0%Z → utc_instant (read_as_utc d) = utc_instant d.
Proof. intros H0. pose proof (date_row_skew d) as Hs. lia. Qed.

(** C8 (defect in the code). For the date [2024-01-15T10:30:00+05:30] the
    Date row reads January 15, 2024 at 10:30:00 UTC: [strftime] prints the
    fields of the value as submitted and the format appends the label UTC.
    Read as UTC the row is 19800 seconds (five and a half hours) off the
    instant of the transaction, which in UTC is 05:00:00. *)
Theorem C8_date_row_prints_local_fields `{Runtime} :
  let data := {| sender := "Alice"; receiver := "Bob"; amount := 100.5%float;
                 currency := "USD"; date := offset_date; transactionId := "TX123";
                 notes := None |} in
  transaction_data data !! 1%nat
    = Some ["Date"; "January 15, 2024 at 10:30:00 UTC"] ∧
  utc_instant (date data)
    = utc_instant {| year := 2024; month := 1; day := 15; hour := 5; minute := 0;
                     second := 0; microsecond := 0; tzinfo := Some 0%Z |} ∧
  (utc_instant (read_as_utc (date data)) - utc_instant (date data) = 19800)%Z.
Proof.
  cbv zeta. split; [reflexivity|]. split; reflexivity.
Qed.

(** ** The page decorator *)

Lemma bind_ok_inv {A B} (m : CanvasM A) (n : CanvasM B) c c' b :
  (m ;; n) c = (c', Ok b) → ∃ c1 a, m c = (c1, Ok a) ∧ n c1 = (c', Ok b).
Proof.
  unfold mbind, CanvasM_bind.
  destruct (m c) as [c1 [a|e]]; [|discriminate].
  intros Hn. by exists c1, a.
Qed.

Lemma call_ok_inv fault k c c' u :
  call fault k c = (c', Ok u) → fault k c = false ∧ exec k c = Some c'.
Proof.
  unfold call. destruct (fault k c); [discriminate|].
  destruct (exec k c) as [c1|]; [|discriminate].
  intros [= <-]. done.
Qed.

Lemma call_sound fault k c c' :
  fault k c = false → exec k c = Some c' → call fault k c = (c', Ok tt).
Proof. intros Hf He. unfold call. by rewrite Hf, He. Qed.

Lemma bind_call {B} (m : CanvasM unit) (n : CanvasM B) c c1 r :
  m c = (c1, Ok tt) → n c1 = r → (m ;; n) c = r.
Proof.
  intros Hm Hn. unfold mbind, CanvasM_bind. by rewrite Hm.
Qed.

(** C10, as the code has it. When the decorator completes, the graphics
    state (colours, font, line width, transform) and the stack of saved
    states are what they were on entry, and the page has gained the six
    drawings. *)
Theorem C10_state_restored_on_completion `{Runtime} now doc c c' :
  add_page_elements now doc c = (c', Ok tt) →
  gstate c' = gstate c ∧ stateStack c' = stateStack c ∧
  length (content c') = (length (content c) + 6)%nat.
Proof.
  unfold add_page_elements. cbv zeta. intros Hrun.
  do 21 (let c1 := fresh "c" in
         let a := fresh "a" in
         let Hc := fresh "Hc" in
         apply bind_ok_inv in Hrun as (c1 & a & Hc & Hrun);
         apply call_ok_inv in Hc as [_ Hc];
         cbn in Hc; injection Hc as <-).
  apply call_ok_inv in Hrun as [_ Hrun]. cbn in Hrun. injection Hrun as <-.
  cbn. split; [by destruct c as [[] ? ?]|]. split; [reflexivity|].
  rewrite !length_app. cbn. lia.
Qed.

(** on a canvas whose calls do not fail the decorator completes *)
Lemma add_page_elements_completes `{Runtime} now doc c :
  (∀ k c0, canvas_fault k c0 = false) →
  ∃ c', add_page_elements now doc c = (c', Ok tt).
Proof.
  intros Hsound. unfold add_page_elements. cbv zeta.
  destruct c as [[fc sc fn fs lw tm] st ct]. eexists.
  do 21 (eapply bind_call; [apply call_sound; [apply Hsound|cbn; reflexivity]|]).
  apply call_sound; [apply Hsound|cbn; reflexivity].
Qed.

Lemma C10_state_restored_on_completion_witness :
  ∃ c', @add_page_elements demo_runtime demo_now demo_doc demo_canvas = (c', Ok tt) ∧
        gstate c' = gstate demo_canvas ∧ stateStack c' = stateStack demo_canvas ∧
        length (content c') = (length (content demo_canvas) + 6)%nat.
Proof.
  eexists. split; [vm_compute; reflexivity|].
  apply (@C10_state_restored_on_completion demo_runtime demo_now demo_doc).
  vm_compute. reflexivity.
Defined.

(** C10 as stated fails: when a call raises in the middle (here the centred
    text of the watermark), the exception leaves the routine at once; the
    fill colour and the font stay as the decorator set them and the saved
    states stay on the stack. *)
Lemma C10_no_restore_on_error :
  ∃ c' e,
    @add_page_elements faulty_runtime demo_now demo_doc demo_canvas = (c', Raise e) ∧
    fillColor (gstate c') = VAULT_LIGHT_GREEN ∧
    fontName (gstate c') = "Helvetica-Bold" ∧
    gstate c' ≠ gstate demo_canvas ∧
    length (stateStack c') = 2%nat ∧
    stateStack c' ≠ stateStack demo_canvas.
Proof.
  eexists _, _. split; [vm_compute; reflexivity|].
  repeat split; cbn; discriminate.
Qed.

(** ** Paths and the file system *)

Lemma split_nonempty sep s : str.split sep s ≠ [].
Proof.
  destruct s as [|c s]; cbn; [discriminate|].
  destruct (Ascii.eqb c sep); [discriminate|].
  destruct (str.split sep s); discriminate.
Qed.

Lemma split_lacks sep s : str.lacks sep s = true → str.split sep s = [s].
Proof.
  induction s as [|c s IH]; [reflexivity|].
  cbn. intros [Hc Hs]%andb_true_iff.
  destruct (Ascii.eqb c sep); [discriminate|].
  by rewrite IH.
Qed.

Lemma split_app sep s1 s2 :
  str.lacks sep s1 = true →
  str.split sep (s1 +:+ String sep s2) = s1 :: str.split sep s2.
Proof.
  induction s1 as [|c s1 IH].
  - intros _. change ("" +:+ String sep s2) with (String sep s2).
    cbn. by rewrite Ascii.eqb_refl.
  - cbn. intros [Hc Hs]%andb_true_iff.
    change (String c s1 +:+ String sep s2) with (String c (s1 +:+ String sep s2)).
    cbn. destruct (Ascii.eqb c sep); [discriminate|].
    by rewrite IH.
Qed.

Lemma split_singleton sep s h :
  str.split sep s = [h] → h = s ∧ str.lacks sep s = true.
Proof.
  revert h. induction s as [|c s IH]; intros h.
  - cbn. by intros [= <-].
  - cbn. destruct (Ascii.eqb c sep) eqn:Hc.
    + intros [= _ Hs]. by apply split_nonempty in Hs.
    + destruct (str.split sep s) as [|h' t] eqn:Hs; [by apply split_nonempty in Hs|].
      intros [= <- ->]. destruct (IH h' eq_refl) as [-> Hl].
      split; [done|]. cbn. rewrite ?Hc. exact Hl.
Qed.

Lemma split_head sep c s :
  Ascii.eqb c sep = false → ∃ h t, str.split sep (String c s) = String c h :: t.
Proof.
  intros Hc. cbn. rewrite Hc.
  destruct (str.split sep s) as [|h t]; eauto.
Qed.

Lemma enter_name l c : c ≠ "" → c ≠ "." → c ≠ ".." → os.enter l c = c :: l.
Proof.
  intros H0 H1 H2. unfold os.enter.
  destruct (decide (c = "" ∨ c = ".")) as [[?|?]|_]; [done..|].
  by destruct (decide (c = "..")).
Qed.

Lemma lacks_not_absolute f : str.lacks "/" f = true → str.startswith f "/" = false.
Proof.
  destruct f as [|c f]; [reflexivity|].
  unfold str.lacks, str.startswith. cbn [str.forallb String.prefix].
  intros [Hc _]%andb_true_iff.
  destruct (ascii_dec "/" c) as [<-|]; [discriminate|reflexivity].
Qed.

Lemma join_storage f :
  str.startswith f "/" = false →
  os.path.join PDF_STORAGE_DIR f = "generated_pdfs" +:+ String "/" f.
Proof. intros Hf. unfold os.path.join. rewrite Hf. reflexivity. Qed.

(** a relative path below the storage directory is resolved from there *)
Lemma resolve_storage fs0 f :
  os.is_dir fs0 (cwd fs0) = true →
  os.resolve fs0 ("generated_pdfs" +:+ String "/" f)
  = os.walk fs0 (storage fs0) (str.split "/" f).
Proof.
  intros Hcwd.
  transitivity (os.walk fs0 (cwd fs0) (str.split "/" ("generated_pdfs" +:+ String "/" f)));
    [reflexivity|].
  rewrite split_app by reflexivity.
  cbn [os.walk]. rewrite Hcwd. reflexivity.
Qed.


Lemma resolve_plain fs0 f :
  os.is_dir fs0 (cwd fs0) = true →
  os.is_dir fs0 (storage fs0) = true →
  plain_name f →
  os.resolve fs0 (os.path.join PDF_STORAGE_DIR f) = Some (f :: storage fs0).
Proof.
  intros Hcwd Hst (Hl & H0 & H1 & H2).
  rewrite join_storage by by apply lacks_not_absolute.
  rewrite resolve_storage by done.
  rewrite split_lacks by done.
  cbn [os.walk]. rewrite Hst. by rewrite enter_name.
Qed.

Lemma write_file_inv fs0 p b fs1 :
  os.write_file fs0 p b = Some fs1 →
  ∃ l, os.resolve fs0 p = Some l ∧ os.is_dir fs0 l = false ∧
       fs1 = {| nodes := <[l := File b]> (nodes fs0); cwd := cwd fs0 |}.
Proof.
  unfold os.write_file.
  destruct (os.path_ok p); [|discriminate].
  destruct (os.resolve fs0 p) as [l|]; [|discriminate].
  destruct (os.is_dir fs0 l) eqn:Hd; [discriminate|].
  intros [= <-]. eauto.
Qed.

Lemma write_file_path_ok fs0 p b fs1 :
  os.write_file fs0 p b = Some fs1 → os.path_ok p = true.
Proof. unfold os.write_file. by destruct (os.path_ok p). Qed.

Lemma is_dir_insert_file fs0 l b l' :
  os.is_dir fs0 l = false →
  os.is_dir {| nodes := <[l := File b]> (nodes fs0); cwd := cwd fs0 |} l' = os.is_dir fs0 l'.
Proof.
  intros Hd. destruct l' as [|c l']; [reflexivity|].
  unfold os.is_dir. cbn [nodes].
  destruct (decide (l = c :: l')) as [->|Hne].
  - rewrite lookup_insert_eq. unfold os.is_dir in Hd.
    by destruct (nodes fs0 !! (c :: l')) as [[]|].
  - by rewrite lookup_insert_ne.
Qed.

Lemma walk_ext fs0 fs1 l cs :
  (∀ l', os.is_dir fs1 l' = os.is_dir fs0 l') → os.walk fs1 l cs = os.walk fs0 l cs.
Proof.
  intros Hd. revert l. induction cs as [|c cs IH]; intros l; [reflexivity|].
  cbn. rewrite Hd. destruct (os.is_dir fs0 l); [apply IH|reflexivity].
Qed.

Lemma resolve_ext fs0 fs1 p :
  (∀ l', os.is_dir fs1 l' = os.is_dir fs0 l') → cwd fs1 = cwd fs0 →
  os.resolve fs1 p = os.resolve fs0 p.
Proof.
  intros Hd Hc. unfold os.resolve. destruct p; [reflexivity|].
  rewrite Hc. by apply walk_ext.
Qed.

(** what was written at a path is what is read back from it *)
Lemma read_after_write fs0 p b fs1 :
  os.write_file fs0 p b = Some fs1 →
  os.path.exists_ fs1 p = true ∧ os.read_file fs1 p = Some b.
Proof.
  intros Hw. pose proof (write_file_path_ok _ _ _ _ Hw) as Hok.
  apply write_file_inv in Hw as (l & Hr & Hd & ->).
  unfold os.path.exists_, os.read_file. rewrite Hok.
  rewrite (resolve_ext fs0), Hr; [|by intros; apply is_dir_insert_file|reflexivity].
  destruct l as [|c l]; [discriminate|].
  unfold os.is_entry. cbn [nodes]. by rewrite lookup_insert_eq.
Qed.

(** ** The handlers *)

Section HandlerFacts.

Context `{Runtime}.

Lemma authorized_token a t : verify_api_key a = Ok t → authorized a.
Proof.
  intros Hv. unfold authorized. rewrite Hv. f_equal.
  by apply verify_api_key_accepts in Hv as (_ & _ & ->).
Qed.

Lemma create_cases w p data u now w' r :
  create_affidavit_pdf w p data u now = (w', r) →
  match r with
  | Ok _ =>
      ∃ pdf fs1, rendered p data u now = Ok pdf ∧
                 os.write_file (fs w) p pdf = Some fs1 ∧
                 w' = {| fs := fs1; effects := Wrote p :: Composed p :: effects w |}
  | Raise _ => fs w' = fs w
  end.
Proof.
  unfold create_affidavit_pdf. fold (rendered p data u now).
  destruct (rendered p data u now) as [pdf|e].
  - cbn [fs log]. destruct (os.write_file (fs w) p pdf) as [fs1|] eqn:Hw.
    + intros [= <- <-]. by exists pdf, fs1.
    + by intros [= <- <-].
  - by intros [= <- <-].
Qed.

Lemma generate_cases w a request u1 u2 now w' r :
  generate_affidavit w a request u1 u2 now = (w', r) →
  match r with
  | Ok ref =>
      authorized a ∧
      ref = {| pdfUrl := "/download-affidavit/" +:+ affidavit_filename request u1;
               filename := affidavit_filename request u1 |} ∧
      ∃ pdf,
        rendered (os.path.join PDF_STORAGE_DIR (affidavit_filename request u1))
                 request u2 now = Ok pdf ∧
        os.write_file (fs w) (os.path.join PDF_STORAGE_DIR (affidavit_filename request u1))
                      pdf = Some (fs w')
  | Raise _ => fs w' = fs w
  end.
Proof.
  unfold generate_affidavit.
  destruct (verify_api_key a) as [t|e] eqn:Hv; [|by intros [= <- <-]].
  destruct (create_affidavit_pdf _ _ _ _ _) as [w1 [[]|e]] eqn:Hc;
    apply create_cases in Hc; intros [= <- <-]; [|done].
  destruct Hc as (pdf & fs1 & Hr & Hw & ->).
  split; [by eapply authorized_token|]. split; [done|]. by exists pdf.
Qed.

Lemma download_fs w a f : fs (download_affidavit w a f).1 = fs w.
Proof.
  unfold download_affidavit.
  destruct (verify_api_key a); [|reflexivity].
  destruct (negb _); [reflexivity|].
  by destruct (os.read_file _ _).
Qed.

Lemma download_present w a f b :
  authorized a →
  os.path.exists_ (fs w) (os.path.join PDF_STORAGE_DIR f) = true →
  os.read_file (fs w) (os.path.join PDF_STORAGE_DIR f) = Some b →
  (download_affidavit w a f).2
  = Ok {| body := b; media_type := "application/pdf"; download_name := f |}.
Proof.
  unfold authorized, download_affidavit. intros -> He Hr.
  cbn [fs log]. by rewrite He, Hr.
Qed.

Lemma download_missing w a f :
  authorized a →
  os.path.exists_ (fs w) (os.path.join PDF_STORAGE_DIR f) = false →
  (download_affidavit w a f).2
  = Raise {| status_code := 404; detail := "PDF not found" |}.
Proof.
  unfold authorized, download_affidavit. intros -> He.
  cbn [fs log]. by rewrite He.
Qed.

Lemma retrieve_fs w a f : fs (retrieve w a f).1 = fs w.
Proof.
  unfold retrieve. destruct (route_filename f); [apply download_fs|done].
Qed.


End HandlerFacts.



(** ** File names *)

Lemma string_length_app s1 s2 :
  String.length (s1 +:+ s2) = (String.length s1 + String.length s2)%nat.
Proof.
  induction s1 as [|c s1 IH]; [reflexivity|].
  change (String c s1 +:+ s2) with (String c (s1 +:+ s2)). cbn. by rewrite IH.
Qed.

Lemma lacks_app c s1 s2 :
  str.lacks c (s1 +:+ s2) = str.lacks c s1 && str.lacks c s2.
Proof.
  induction s1 as [|d s1 IH]; [reflexivity|].
  change (String d s1 +:+ s2) with (String d (s1 +:+ s2)).
  unfold str.lacks in *. cbn [str.forallb]. by rewrite IH, andb_assoc.
Qed.

(** equal texts with tails of equal length have equal heads and tails *)
Lemma app_eq_tail s1 s2 t1 t2 :
  String.length t1 = String.length t2 →
  s1 +:+ t1 = s2 +:+ t2 → s1 = s2 ∧ t1 = t2.
Proof.
  intros Hlen. revert s2. induction s1 as [|c s1 IH]; intros [|d s2] Heq.
  - done.
  - exfalso. change ("" +:+ t1) with t1 in Heq. subst t1.
    rewrite string_length_app in Hlen. cbn in Hlen. lia.
  - exfalso. change ("" +:+ t2) with t2 in Heq. subst t2.
    rewrite string_length_app in Hlen. cbn in Hlen. lia.
  - change (String c (s1 +:+ t1) = String d (s2 +:+ t2)) in Heq.
    injection Heq as -> Heq. destruct (IH _ Heq) as [-> ->]. done.
Qed.

Section NameFacts.

Context `{Runtime}.

Lemma hex8_no_slash u : str.lacks "/" (str.take 8 (uuid.hex u)) = true.
Proof.
  apply forallb_take, (forallb_impl is_lower_hex); [|apply hex_lower].
  apply lower_hex_no_slash.
Qed.

Lemma affidavit_filename_plain request u :
  str.lacks "/" (transactionId request) = true →
  plain_name (affidavit_filename request u).
Proof.
  intros Hid. split.
  - unfold affidavit_filename. rewrite !lacks_app, Hid, hex8_no_slash. reflexivity.
  - unfold affidavit_filename.
    change ("VAULT_Affidavit_" +:+ ?s) with (String "V" ("AULT_Affidavit_" +:+ s)).
    repeat split; discriminate.
Qed.

Lemma lower_hex_no_nul c : is_lower_hex c = true → negb (Ascii.eqb c Ascii.zero) = true.
Proof.
  destruct (Ascii.eqb_spec c Ascii.zero) as [->|]; [discriminate|reflexivity].
Qed.

Lemma affidavit_filename_length request u :
  String.length (affidavit_filename request u)
  = (29 + String.length (transactionId request))%nat.
Proof.
  unfold affidavit_filename.
  rewrite !string_length_app, hex_take_length by lia. cbn. lia.
Qed.

(** the system accepts the path of the file when the identifier has no
    slash and no NUL and the file name fits in [NAME_MAX] *)
Lemma affidavit_path_ok request u :
  str.lacks "/" (transactionId request) = true →
  str.lacks Ascii.zero (transactionId request) = true →
  (String.length (transactionId request) ≤ 226)%nat →
  os.path_ok (os.path.join PDF_STORAGE_DIR (affidavit_filename request u)) = true.
Proof.
  intros Hid Hnul Hlen.
  pose proof (affidavit_filename_plain request u Hid) as (Hl & _).
  pose proof (affidavit_filename_length request u) as Hfl.
  rewrite join_storage by by apply lacks_not_absolute.
  unfold os.path_ok. rewrite split_app, split_lacks by done.
  rewrite !andb_true_iff. split; [split|].
  - change (String "/" (affidavit_filename request u))
      with ("/" +:+ affidavit_filename request u).
    unfold affidavit_filename. rewrite !lacks_app, Hnul.
    assert (Hh : str.lacks Ascii.zero (str.take 8 (uuid.hex u)) = true).
    { apply forallb_take, (forallb_impl is_lower_hex); [|apply hex_lower].
      apply lower_hex_no_nul. }
    rewrite Hh. reflexivity.
  - apply Nat.ltb_lt.
    change (String "/" (affidavit_filename request u))
      with ("/" +:+ affidavit_filename request u).
    rewrite !string_length_app, Hfl. unfold os.PATH_MAX. cbn. lia.
  - cbn [forallb]. rewrite andb_true_r. apply andb_true_iff. split; [reflexivity|].
    apply Nat.leb_le. rewrite Hfl. unfold os.NAME_MAX. lia.
Qed.

(** the file name determines the identifier and the eight digits *)
Lemma affidavit_filename_inj r1 u1 r2 u2 :
  affidavit_filename r1 u1 = affidavit_filename r2 u2 ↔
  transactionId r1 = transactionId r2 ∧
  str.take 8 (uuid.hex u1) = str.take 8 (uuid.hex u2).
Proof.
  unfold affidavit_filename. split.
  - intros Heq. apply (inj _) in Heq.
    apply app_eq_tail in Heq as [Hid Heq].
    + split; [done|]. apply (inj _) in Heq.
      by apply app_eq_tail in Heq as [? _].
    + rewrite !string_length_app, !hex_take_length by lia. reflexivity.
  - by intros [-> ->].
Qed.

End NameFacts.

(** C2, as the code has it. The identifier is used verbatim, and an
    identifier without a slash gives a file name that is one ordinary path
    component (no slash; not empty, [.] or [..]), so the joined path is the
    entry of that name directly inside the storage directory. *)
Theorem C2_plain_ids_stay_in_storage `{Runtime} fs0 request u :
  str.lacks "/" (transactionId request) = true →
  os.is_dir fs0 (cwd fs0) = true →
  os.is_dir fs0 (storage fs0) = true →
  plain_name (affidavit_filename request u) ∧
  os.resolve fs0 (os.path.join PDF_STORAGE_DIR (affidavit_filename request u))
  = Some (affidavit_filename request u :: storage fs0).
Proof.
  intros Hid Hcwd Hst.
  pose proof (affidavit_filename_plain request u Hid) as Hp.
  split; [exact Hp|]. by apply resolve_plain.
Qed.

Lemma C2_plain_ids_stay_in_storage_witness :
  os.resolve (fs demo_world) "generated_pdfs/VAULT_Affidavit_TX123_00000000.pdf"
  = Some ["VAULT_Affidavit_TX123_00000000.pdf"; "generated_pdfs"; "app"; "srv"].
Proof.
  apply (@C2_plain_ids_stay_in_storage demo_runtime (fs demo_world) demo_request 1%Z);
    vm_compute; reflexivity.
Defined.

(** C2 as stated fails: nothing checks or rewrites the identifier. The empty
    identifier is accepted and a document is stored for it; an identifier
    with parent segments is accepted too, and where its path resolves the
    document is written outside the storage directory (here into the working
    directory). *)
Lemma C2_ids_are_not_checked :
  (@generate_affidavit demo_runtime demo_world demo_key (with_id demo_request "")
     1%Z 2%Z demo_now).2
  = Ok {| pdfUrl := "/download-affidavit/VAULT_Affidavit__00000000.pdf";
          filename := "VAULT_Affidavit__00000000.pdf" |} ∧
  (let run := @generate_affidavit demo_runtime nested_world demo_key
                (with_id demo_request "/../../escaped") 1%Z 2%Z demo_now in
   run.2 = Ok {| pdfUrl := "/download-affidavit/VAULT_Affidavit_/../../escaped_00000000.pdf";
                 filename := "VAULT_Affidavit_/../../escaped_00000000.pdf" |} ∧
   nodes (fs nested_world) !! ["escaped_00000000.pdf"; "app"; "srv"] = None ∧
   is_Some (nodes (fs run.1) !! ["escaped_00000000.pdf"; "app"; "srv"])).
Proof.
  split; [vm_compute; reflexivity|].
  cbv zeta. split; [vm_compute; reflexivity|].
  split; [vm_compute; reflexivity|].
  vm_compute. eexists. reflexivity.
Qed.

(** ** What [Retrieve] can reach *)



Section RetrieveFacts.

Context `{Runtime}.




End RetrieveFacts.




(** ** Generation *)

(** C5, as the code has it. With a valid credential, an identifier without a
    slash and without NUL whose file name fits the limit of the file system
    (at most 226 bytes of identifier), a storage directory in place, no
    directory in the way and a rendering that completes, [Generate]
    succeeds: it stores the rendered
    bytes and returns the retrieval path and the file name
    [VAULT_Affidavit_<id>_<h>.pdf], where [h] is the first eight lowercase
    hexadecimal digits of the UUID drawn for the call. Another call returns
    this same name exactly when its identifier and its eight digits are the
    same: names differ whenever the eight digits differ. *)
Theorem C5_generate_returns_reference `{Runtime} w a request u1 u2 now pdf :
  authorized a →
  str.lacks "/" (transactionId request) = true →
  str.lacks Ascii.zero (transactionId request) = true →
  (String.length (transactionId request) ≤ 226)%nat →
  os.is_dir (fs w) (cwd (fs w)) = true →
  os.is_dir (fs w) (storage (fs w)) = true →
  os.is_dir (fs w) (affidavit_filename request u1 :: storage (fs w)) = false →
  rendered (os.path.join PDF_STORAGE_DIR (affidavit_filename request u1))
           request u2 now = Ok pdf →
  ∃ w' h,
    let fn := "VAULT_Affidavit_" +:+ transactionId request +:+ "_" +:+ h +:+ ".pdf" in
    generate_affidavit w a request u1 u2 now
    = (w', Ok {| pdfUrl := "/download-affidavit/" +:+ fn; filename := fn |}) ∧
    String.length h = 8%nat ∧
    str.forallb is_lower_hex h = true ∧
    os.read_file (fs w') (os.path.join PDF_STORAGE_DIR fn) = Some pdf ∧
    ∀ request' u1',
      affidavit_filename request' u1' = fn ↔
      transactionId request' = transactionId request ∧ str.take 8 (uuid.hex u1') = h.
Proof.
  intros Ha Hid Hnul Hlen Hcwd Hst Hfree Hr.
  pose proof (affidavit_filename_plain request u1 Hid) as Hp.
  pose proof (resolve_plain _ _ Hcwd Hst Hp) as Hres.
  pose proof (affidavit_path_ok request u1 Hid Hnul Hlen) as Hok.
  destruct (os.write_file (fs w) (os.path.join PDF_STORAGE_DIR (affidavit_filename request u1)) pdf)
    as [fs1|] eqn:Hw; cycle 1.
  { unfold os.write_file in Hw. by rewrite Hok, Hres, Hfree in Hw. }
  eexists _, (str.take 8 (uuid.hex u1)). cbv zeta.
  fold (affidavit_filename request u1).
  split; [|split; [|split; [|split]]].
  - unfold generate_affidavit, create_affidavit_pdf.
    unfold authorized in Ha. rewrite Ha.
    fold (rendered (os.path.join PDF_STORAGE_DIR (affidavit_filename request u1)) request u2 now).
    rewrite Hr. cbn [fs log]. rewrite Hw. reflexivity.
  - by apply hex_take_length; lia.
  - apply forallb_take, hex_lower.
  - cbn [fs]. by apply read_after_write in Hw as [_ ?].
  - intros request' u1'. apply affidavit_filename_inj.
Qed.

Lemma C5_generate_returns_reference_witness :
  ∃ w' h,
    @generate_affidavit demo_runtime demo_world demo_key demo_request 7%Z 8%Z demo_now
    = (w', Ok {| pdfUrl := "/download-affidavit/" +:+
                           ("VAULT_Affidavit_" +:+ "TX123" +:+ "_" +:+ h +:+ ".pdf");
                 filename := "VAULT_Affidavit_" +:+ "TX123" +:+ "_" +:+ h +:+ ".pdf" |}) ∧
    String.length h = 8%nat.
Proof.
  destruct (@C5_generate_returns_reference demo_runtime demo_world demo_key
              demo_request 7%Z 8%Z demo_now
              (list_byte_of_string
                 (String.concat "|"
                    (concat (map cells (@elements demo_runtime demo_request 8%Z demo_now))))))
    as (w' & h & Hgen & Hlen & _);
    try first [vm_compute; reflexivity | vm_compute; lia].
  exists w', h. split; [exact Hgen|exact Hlen].
Defined.

(** C5 as stated fails. Two calls with the same record whose UUIDs differ
    only after the first eight digits return the same file name, and the
    second call replaces the document the first one stored. A record whose
    identifier contains a slash, is 300 bytes long or contains a NUL is
    accepted as a record, and generation for it ends in a server error. *)
Lemma C5_names_can_repeat :
  let run1 := @generate_affidavit demo_runtime demo_world demo_key demo_request
                1%Z 10%Z demo_now in
  let run2 := @generate_affidavit demo_runtime run1.1 demo_key demo_request
                2%Z (2 ^ 100)%Z demo_now in
  let ref := {| pdfUrl := "/download-affidavit/VAULT_Affidavit_TX123_00000000.pdf";
                filename := "VAULT_Affidavit_TX123_00000000.pdf" |} in
  let path := "generated_pdfs/VAULT_Affidavit_TX123_00000000.pdf" in
  uuid.hex 1%Z ≠ uuid.hex 2%Z ∧
  run1.2 = Ok ref ∧ run2.2 = Ok ref ∧
  is_Some (os.read_file (fs run1.1) path) ∧
  os.read_file (fs run2.1) path ≠ os.read_file (fs run1.1) path ∧
  (@generate_affidavit demo_runtime demo_world demo_key
     (with_id demo_request "a/b") 1%Z 10%Z demo_now).2
  = Raise {| status_code := 500;
             detail := "PDF generation failed: [Errno 2] No such file or directory: "
                       +:+ "'generated_pdfs/VAULT_Affidavit_a/b_00000000.pdf'" |} ∧
  (∃ e, (@generate_affidavit demo_runtime demo_world demo_key
           (with_id demo_request long_id) 1%Z 10%Z demo_now).2 = Raise e ∧
        status_code e = 500%nat ∧
        String.prefix "PDF generation failed: [Errno 36] File name too long: "
                      (detail e) = true) ∧
  (@generate_affidavit demo_runtime demo_world demo_key
     (with_id demo_request nul_id) 1%Z 10%Z demo_now).2
  = Raise {| status_code := 500;
             detail := "PDF generation failed: embedded null byte" |}.
Proof.
  cbv zeta.
  split; [vm_compute; discriminate|].
  split; [vm_compute; reflexivity|].
  split; [vm_compute; reflexivity|].
  split; [vm_compute; eexists; reflexivity|].
  split; [vm_compute; discriminate|].
  split; [vm_compute; reflexivity|].
  split; [|vm_compute; reflexivity].
  eexists. split; [vm_compute; reflexivity|]. split; vm_compute; reflexivity.
Qed.

(** ** What the storage directory holds *)

Lemma cons_neq_self {A} (x : A) (l : list A) : l ≠ x :: l.
Proof. intros Heq. apply (f_equal length) in Heq. cbn in Heq. lia. Qed.

Lemma is_dir_insert_other fs0 l n l' :
  l ≠ l' →
  os.is_dir {| nodes := <[l := n]> (nodes fs0); cwd := cwd fs0 |} l' = os.is_dir fs0 l'.
Proof.
  intros Hne. destruct l' as [|c l']; [reflexivity|].
  unfold os.is_dir. cbn [nodes]. by rewrite lookup_insert_ne.
Qed.

Lemma storage_inv_mono fs0 (P Q : list string) :
  (∀ x, x ∈ P → x ∈ Q) → storage_inv fs0 P → storage_inv fs0 Q.
Proof.
  intros HPQ (Hcwd & Hst & Hch). split; [done|]. split; [done|].
  intros name n Hn. destruct (Hch name n Hn) as [Hf Hin]. auto.
Qed.

Lemma produced_cons r rs : produced (r :: rs) = produced [r] ++ produced rs.
Proof. by destruct r as [[ref|e]|res]. Qed.

Section StorageFacts.

Context `{Runtime}.

Lemma resolve_storage_dir fs0 :
  os.is_dir fs0 (cwd fs0) = true → os.resolve fs0 PDF_STORAGE_DIR = Some (storage fs0).
Proof.
  intros Hcwd.
  change (os.resolve fs0 PDF_STORAGE_DIR)
    with (if os.is_dir fs0 (cwd fs0) then Some (storage fs0) else None).
  by rewrite Hcwd.
Qed.

(** after the start of the module on a storage directory that is empty or
    absent, the storage directory exists and is empty *)
Lemma startup_inv fs0 w0 :
  startup fs0 = Some w0 →
  os.is_dir fs0 (cwd fs0) = true →
  (∀ name, nodes fs0 !! (name :: storage fs0) = None) →
  storage_inv (fs w0) [].
Proof.
  intros Hstart Hcwd Hempty. unfold startup, os.makedirs in Hstart.
  rewrite resolve_storage_dir in Hstart by done.
  destruct (os.is_dir fs0 (storage fs0)) eqn:Hst.
  - injection Hstart as <-. cbn [fs]. split; [done|]. split; [done|].
    intros name n Hn. by rewrite Hempty in Hn.
  - destruct (os.is_entry fs0 (storage fs0)); [discriminate|].
    injection Hstart as <-. cbn [fs]. unfold storage_inv. cbn [cwd].
    change (storage {| nodes := _; cwd := cwd fs0 |}) with (storage fs0).
    split; [|split].
    + rewrite is_dir_insert_other; [done|]. apply not_eq_sym, cons_neq_self.
    + unfold os.is_dir, storage. cbn [nodes]. by rewrite lookup_insert_eq.
    + intros name n. cbn [nodes].
      rewrite lookup_insert_ne by apply cons_neq_self.
      by rewrite Hempty.
Qed.

(** a write through [Generate] lands directly inside the storage directory,
    under the name that is returned *)
Lemma generate_target w request u pdf fs1 P :
  storage_inv (fs w) P →
  os.write_file (fs w) (os.path.join PDF_STORAGE_DIR (affidavit_filename request u)) pdf
  = Some fs1 →
  plain_name (affidavit_filename request u) ∧
  os.is_dir (fs w) (affidavit_filename request u :: storage (fs w)) = false ∧
  fs1 = {| nodes := <[affidavit_filename request u :: storage (fs w) := File pdf]>
                      (nodes (fs w));
           cwd := cwd (fs w) |}.
Proof.
  intros (Hcwd & Hst & Hch) (l & Hres & Hd & ->)%write_file_inv.
  set (fn := affidavit_filename request u) in *.
  assert (Hv : ∃ rest, fn = String "V" rest) by (eexists; reflexivity).
  destruct Hv as [rest Hfn].
  rewrite join_storage in Hres by (by rewrite Hfn).
  rewrite resolve_storage in Hres by done.
  destruct (split_head "/" "V" rest eq_refl) as (h & t & Hsplit).
  rewrite Hfn, Hsplit in Hres. cbn [os.walk] in Hres. rewrite Hst in Hres.
  rewrite enter_name in Hres by discriminate.
  destruct t as [|c t].
  - cbn in Hres. injection Hres as <-.
    apply split_singleton in Hsplit as [Heq Hl]. injection Heq as ->.
    rewrite Hfn. split; [|done]. split; [done|]. repeat split; discriminate.
  - exfalso. cbn [os.walk] in Hres.
    destruct (os.is_dir (fs w) (String "V" h :: storage (fs w))) eqn:Hdir; [|done].
    unfold os.is_dir in Hdir.
    destruct (nodes (fs w) !! (String "V" h :: storage (fs w))) as [n|] eqn:Hn; [|done].
    destruct (Hch _ _ Hn) as [[b ->] _]. done.
Qed.

Lemma generate_inv w a request u1 u2 now w' r P :
  storage_inv (fs w) P →
  generate_affidavit w a request u1 u2 now = (w', r) →
  storage_inv (fs w') (produced [Generated r] ++ P).
Proof.
  intros Hinv Hgen. pose proof Hgen as Hcases. apply generate_cases in Hcases.
  destruct r as [ref|e].
  - destruct Hcases as (_ & -> & pdf & _ & Hw).
    destruct (generate_target _ _ _ _ _ _ Hinv Hw) as (_ & Hfree & Hfs).
    destruct Hinv as (Hcwd & Hst & Hch).
    rewrite Hfs. unfold storage_inv. cbn [cwd].
    change (storage {| nodes := _; cwd := cwd (fs w) |}) with (storage (fs w)).
    rewrite !is_dir_insert_file by done.
    split; [done|]. split; [done|].
    intros name n. cbn [nodes produced omap filename app].
    destruct (decide (affidavit_filename request u1 = name)) as [<-|Hne].
    + rewrite lookup_insert_eq. intros [= <-]. split; [by eexists|]. left.
    + rewrite lookup_insert_ne by congruence.
      intros Hn. destruct (Hch _ _ Hn) as [Hf Hin]. split; [done|]. by right.
  - rewrite Hcases. exact Hinv.
Qed.

Lemma handle_inv w rq w' r P :
  storage_inv (fs w) P → handle w rq = (w', r) →
  storage_inv (fs w') (produced [r] ++ P).
Proof.
  intros Hinv. destruct rq as [a request u1 u2 now|a f]; cbn [handle].
  - destruct (generate_affidavit w a request u1 u2 now) as [w1 res] eqn:Hgen.
    intros [= <- <-]. by eapply generate_inv.
  - destruct (retrieve w a f) as [w1 res] eqn:Hd.
    intros [= <- <-]. cbn [produced omap app].
    change w1 with (w1, res).1. by rewrite <- Hd, retrieve_fs.
Qed.

(** whatever requests are served, the storage directory holds only the
    files that [Generate] calls returned *)
Lemma serve_inv w rqs P :
  storage_inv (fs w) P →
  storage_inv (fs (serve w rqs).1) (produced (serve w rqs).2 ++ P).
Proof.
  revert w P. induction rqs as [|rq rqs IH]; intros w P Hinv; [exact Hinv|].
  cbn [serve].
  destruct (handle w rq) as [w1 r] eqn:Hh.
  specialize (IH w1 _ (handle_inv _ _ _ _ _ Hinv Hh)).
  destruct (serve w1 rqs) as [w2 rs]. cbn [fst snd] in *.
  eapply storage_inv_mono; [|exact IH].
  intros x. rewrite (produced_cons r rs), !elem_of_app. tauto.
Qed.

(** a request leaves alone the files of the storage directory other than
    the one whose name it returns *)
Lemma handle_keeps w rq w' r P f :
  storage_inv (fs w) P → handle w rq = (w', r) → f ∉ produced [r] →
  nodes (fs w') !! (f :: storage (fs w')) = nodes (fs w) !! (f :: storage (fs w)).
Proof.
  intros Hinv. destruct rq as [a request u1 u2 now|a f']; cbn [handle].
  - destruct (generate_affidavit w a request u1 u2 now) as [w1 res] eqn:Hgen.
    intros [= <- <-] Hf. apply generate_cases in Hgen.
    destruct res as [ref|e]; [|by rewrite Hgen].
    destruct Hgen as (_ & -> & pdf & _ & Hw).
    destruct (generate_target _ _ _ _ _ _ Hinv Hw) as (_ & _ & ->).
    cbn [nodes]. change (storage {| nodes := _; cwd := cwd (fs w) |}) with (storage (fs w)).
    rewrite lookup_insert_ne; [done|].
    intros [= Heq]. apply Hf. cbn. rewrite Heq. left.
  - destruct (retrieve w a f') as [w1 res] eqn:Hd.
    intros [= <- <-] _. change w1 with (w1, res).1. by rewrite <- Hd, retrieve_fs.
Qed.

Lemma serve_keeps w rqs P f :
  storage_inv (fs w) P → f ∉ produced (serve w rqs).2 →
  nodes (fs (serve w rqs).1) !! (f :: storage (fs (serve w rqs).1))
  = nodes (fs w) !! (f :: storage (fs w)).
Proof.
  revert w P. induction rqs as [|rq rqs IH]; intros w P Hinv; [done|].
  cbn [serve].
  destruct (handle w rq) as [w1 r] eqn:Hh.
  specialize (IH w1 _ (handle_inv _ _ _ _ _ Hinv Hh)).
  destruct (serve w1 rqs) as [w2 rs]. cbn [fst snd] in *.
  rewrite produced_cons, not_elem_of_app. intros [Hr Hrs].
  rewrite IH by done. by eapply handle_keeps.
Qed.

(** Where the storage directory holds only regular files, a document that
    [Generate] stored is returned unchanged also after further [Generate]
    calls, as long as none of them returns the same file name. *)
Lemma retrieve_after_other_requests w a request u1 u2 now w' ref P :
  storage_inv (fs w) P →
  generate_affidavit w a request u1 u2 now = (w', Ok ref) →
  ∃ pdf,
    rendered (os.path.join PDF_STORAGE_DIR (filename ref)) request u2 now = Ok pdf ∧
    ∀ a' rqs,
      authorized a' → filename ref ∉ produced (serve w' rqs).2 →
      (download_affidavit (serve w' rqs).1 a' (filename ref)).2
      = Ok {| body := pdf; media_type := "application/pdf";
              download_name := filename ref |}.
Proof.
  intros Hinv Hgen.
  pose proof (generate_inv _ _ _ _ _ _ _ _ _ Hinv Hgen) as Hinv'.
  apply generate_cases in Hgen as (_ & -> & pdf & Hr & Hw). cbn [filename].
  destruct (generate_target _ _ _ _ _ _ Hinv Hw) as (Hp & _ & Hfs).
  exists pdf. split; [done|]. intros a' rqs Ha' Hother.
  pose proof (serve_inv w' rqs _ Hinv') as (Hcwd & Hst & _).
  pose proof (serve_keeps w' rqs _ _ Hinv' Hother) as Hkeep.
  rewrite Hfs in Hkeep. cbn [nodes] in Hkeep.
  change (storage {| nodes := _; cwd := cwd (fs w) |}) with (storage (fs w)) in Hkeep.
  rewrite lookup_insert_eq in Hkeep.
  pose proof (write_file_path_ok _ _ _ _ Hw) as Hok.
  apply download_present; [done|..].
  - unfold os.path.exists_. rewrite Hok, resolve_plain by done.
    unfold os.is_entry. by rewrite Hkeep.
  - unfold os.read_file. rewrite Hok, resolve_plain by done.
    cbv beta iota. by rewrite Hkeep.
Qed.

End StorageFacts.

(** C4, as the code has it. Let the service start with a storage directory
    that is empty or absent, and serve any requests. Then for every file
    name that is one ordinary path component and that no [Generate] call
    has returned, [Retrieve] with a valid credential reports not found. *)
Theorem C4_unknown_plain_name_not_found `{Runtime} fs0 w0 rqs a f :
  startup fs0 = Some w0 →
  os.is_dir fs0 (cwd fs0) = true →
  (∀ name, nodes fs0 !! (name :: storage fs0) = None) →
  plain_name f →
  f ∉ produced (serve w0 rqs).2 →
  authorized a →
  (download_affidavit (serve w0 rqs).1 a f).2
  = Raise {| status_code := 404; detail := "PDF not found" |}.
Proof.
  intros Hstart Hcwd Hempty Hf Hnew Ha.
  pose proof (serve_inv w0 rqs [] (startup_inv _ _ Hstart Hcwd Hempty)) as Hinv.
  rewrite app_nil_r in Hinv. destruct Hinv as (Hcwd' & Hst' & Hch).
  apply download_missing; [done|].
  unfold os.path.exists_.
  destruct (os.path_ok (os.path.join PDF_STORAGE_DIR f)); [|reflexivity].
  rewrite resolve_plain by done.
  unfold os.is_entry.
  destruct (nodes (fs (serve w0 rqs).1) !! (f :: storage (fs (serve w0 rqs).1)))
    as [n|] eqn:Hn; [|reflexivity].
  destruct (Hch _ _ Hn) as [_ Hin]. contradiction.
Qed.

Lemma C4_unknown_plain_name_not_found_witness :
  (@download_affidavit demo_runtime
     (@serve demo_runtime demo_world
        [Generate demo_key demo_request 1%Z 2%Z demo_now]).1
     demo_key "VAULT_Affidavit_TX123_ffffffff.pdf").2
  = Raise {| status_code := 404; detail := "PDF not found" |}.
Proof.
  apply (@C4_unknown_plain_name_not_found demo_runtime demo_fs).
  - vm_compute. reflexivity.
  - vm_compute. reflexivity.
  - intros name. unfold demo_fs. cbn [nodes].
    rewrite !lookup_insert_ne by discriminate. by rewrite lookup_singleton_ne.
  - repeat split; discriminate.
  - intros Hin. vm_compute in Hin.
    apply list_elem_of_singleton in Hin. discriminate.
  - vm_compute. reflexivity.
Defined.

(** C4 as stated fails: a name that no [Generate] call has returned is
    served when a file of that name was in the storage directory before the
    service started. *)
Lemma C4_unknown_names_are_served :
  produced (@serve demo_runtime stale_world []).2 = [] ∧
  (@download_affidavit demo_runtime stale_world demo_key "old.pdf").2
  = Ok {| body := list_byte_of_string "%PDF-old"; media_type := "application/pdf";
          download_name := "old.pdf" |} ∧
  (@retrieve demo_runtime stale_world demo_key "old.pdf").2
  = Ok {| body := list_byte_of_string "%PDF-old"; media_type := "application/pdf";
          download_name := "old.pdf" |}.
Proof. split; [reflexivity|]. split; vm_compute; reflexivity. Qed.

(** * Further properties of the code *)

(** ** The key check and the outcomes of the handlers *)

(** X2. A request that the key check refuses is answered with the error of
    the check, and the world stays as it was (file system and effect log):
    nothing is composed, looked up, read or written, and the answer does not
    depend on the record, the file name or the stored files. *)
Theorem X2_refused_requests_do_nothing `{Runtime} w a e :
  verify_api_key a = Raise e →
  status_code e = 401%nat ∧
  (∀ request u1 u2 now, generate_affidavit w a request u1 u2 now = (w, Raise e)) ∧
  (∀ f, download_affidavit w a f = (w, Raise e)).
Proof.
  intros Hv. split; [by eapply verify_api_key_status|].
  split; intros; [by apply unauthorized_generate|by apply unauthorized_download].
Qed.

Lemma X2_refused_requests_do_nothing_witness :
  @generate_affidavit demo_runtime demo_world "Bearer wrong" demo_request 1%Z 2%Z demo_now
  = (demo_world, Raise {| status_code := 401; detail := "Invalid API key" |}) ∧
  @download_affidavit demo_runtime demo_world "your-development-api-key" "x.pdf"
  = (demo_world, Raise {| status_code := 401;
                          detail := "Invalid authorization header format" |}).
Proof.
  split.
  - apply (@X2_refused_requests_do_nothing demo_runtime demo_world "Bearer wrong").
    vm_compute. reflexivity.
  - apply (@X2_refused_requests_do_nothing demo_runtime demo_world
             "your-development-api-key").
    vm_compute. reflexivity.
Defined.

(** X3. When the environment sets [API_KEY] to a text that does not contain
    the scheme word, that text is the secret, and the header made of the
    scheme word and the secret is accepted. *)
Theorem X3_configured_key_is_accepted `{Runtime} k :
  environ !! "API_KEY" = Some k →
  occurs "Bearer " k = false →
  API_KEY = k ∧ verify_api_key ("Bearer " +:+ k) = Ok k.
Proof.
  intros Hk Ho.
  assert (Hkey : API_KEY = k) by (unfold API_KEY; by rewrite Hk).
  split; [done|]. rewrite <- Hkey. apply verify_api_key_exact. by rewrite Hkey.
Qed.

Lemma X3_configured_key_is_accepted_witness :
  @API_KEY set_key_runtime = "s3cret" ∧
  @verify_api_key set_key_runtime "Bearer s3cret" = Ok "s3cret".
Proof.
  apply (@X3_configured_key_is_accepted set_key_runtime "s3cret");
    vm_compute; reflexivity.
Defined.

(** X4. When the environment does not set [API_KEY], the development key of
    the source is the secret: the header [Bearer your-development-api-key]
    passes the check. *)
Theorem X4_unset_key_falls_back `{Runtime} :
  environ !! "API_KEY" = None →
  API_KEY = "your-development-api-key" ∧
  authorized "Bearer your-development-api-key".
Proof.
  intros Hk.
  assert (Hkey : API_KEY = "your-development-api-key") by (unfold API_KEY; by rewrite Hk).
  split; [done|]. unfold authorized.
  pose proof verify_api_key_exact as Hx. rewrite Hkey in Hx. rewrite Hkey.
  apply Hx. reflexivity.
Qed.

Lemma X4_unset_key_falls_back_witness :
  @authorized demo_runtime "Bearer your-development-api-key".
Proof.
  apply (@X4_unset_key_falls_back demo_runtime). vm_compute. reflexivity.
Defined.

Section OutcomeFacts.

Context `{Runtime}.

Lemma authorized_not_refused a e : authorized a → verify_api_key a ≠ Raise e.
Proof. unfold authorized. by intros ->. Qed.

Lemma generate_raise_inv w a request u1 u2 now w' e :
  generate_affidavit w a request u1 u2 now = (w', Raise e) →
  (verify_api_key a = Raise e ∧ w' = w) ∨
  (authorized a ∧ fs w' = fs w ∧
   effects w'
   = Composed (os.path.join PDF_STORAGE_DIR (affidavit_filename request u1)) :: effects w ∧
   ∃ e0, e = {| status_code := 500;
                detail := "PDF generation failed: " +:+ str_exn e0 |}).
Proof.
  unfold generate_affidavit.
  destruct (verify_api_key a) as [t|e1] eqn:Hv; [|intros [= <- <-]; by left].
  intros Hrun. right. split; [by eapply authorized_token|].
  unfold create_affidavit_pdf in Hrun.
  destruct (build _ _ _ _) as [pdf|e0].
  - cbn [fs log] in Hrun. destruct (os.write_file _ _ _) as [fs1|]; [discriminate|].
    injection Hrun as <- <-. split; [done|]. split; [done|].
    by exists (open_error (fs w)
                 (os.path.join PDF_STORAGE_DIR (affidavit_filename request u1))).
  - injection Hrun as <- <-. split; [done|]. split; [done|].
    by exists e0.
Qed.


End OutcomeFacts.

(** X5. When [Generate] answers with an error, the file system is as before.
    The error is either the one of the key check (status 401, and then the
    effect log is untouched too), or, with an accepted credential, status 500
    with the detail [PDF generation failed: ] followed by the text of the
    exception that was caught; in that case one composition was logged and
    no write. *)
Theorem X5_generate_errors `{Runtime} w a request u1 u2 now w' e :
  generate_affidavit w a request u1 u2 now = (w', Raise e) →
  fs w' = fs w ∧
  ((verify_api_key a = Raise e ∧ status_code e = 401%nat ∧ w' = w) ∨
   (authorized a ∧ status_code e = 500%nat ∧
    (∃ e0, detail e = "PDF generation failed: " +:+ str_exn e0) ∧
    effects w'
    = Composed (os.path.join PDF_STORAGE_DIR (affidavit_filename request u1))
        :: effects w)).
Proof.
  intros [[Hv ->]|(Ha & Hfs & Hlog & e0 & ->)]%generate_raise_inv.
  - split; [done|]. left. split; [done|]. split; [by eapply verify_api_key_status|done].
  - split; [done|]. right. split; [done|]. split; [done|]. split; [by exists e0|done].
Qed.

Lemma X5_generate_errors_witness :
  let run := @generate_affidavit broken_build_runtime demo_world demo_key demo_request
               1%Z 2%Z demo_now in
  run.2 = Raise {| status_code := 500;
                   detail := "PDF generation failed: Flowable too large on page" |} ∧
  fs run.1 = fs demo_world.
Proof.
  cbv zeta. split; [vm_compute; reflexivity|].
  eapply (@X5_generate_errors broken_build_runtime demo_world demo_key demo_request
            1%Z 2%Z demo_now).
  vm_compute. reflexivity.
Defined.

(** X6. A [Generate] call that succeeds changes the file system at exactly
    one location, the one the joined path resolves to, where it puts the
    rendered bytes as a regular file; it logs one composition and one write
    of that path, and the retrieval path it returns is [/download-affidavit/]
    followed by the file name. *)
Theorem X6_generate_writes_one_file `{Runtime} w a request u1 u2 now w' ref :
  generate_affidavit w a request u1 u2 now = (w', Ok ref) →
  let p := os.path.join PDF_STORAGE_DIR (filename ref) in
  ∃ l pdf,
    rendered p request u2 now = Ok pdf ∧
    os.resolve (fs w) p = Some l ∧
    nodes (fs w') !! l = Some (File pdf) ∧
    (∀ l', l' ≠ l → nodes (fs w') !! l' = nodes (fs w) !! l') ∧
    cwd (fs w') = cwd (fs w) ∧
    effects w' = Wrote p :: Composed p :: effects w ∧
    pdfUrl ref = "/download-affidavit/" +:+ filename ref.
Proof.
  intros Hgen. cbv zeta.
  pose proof Hgen as (_ & -> & pdf & Hr & Hw)%generate_cases. cbn [filename pdfUrl].
  apply write_file_inv in Hw as (l & Hres & _ & Hfs).
  exists l, pdf. rewrite Hfs. cbn [nodes cwd].
  split; [done|]. split; [done|]. split; [by rewrite lookup_insert_eq|].
  split; [by intros l' Hl'; rewrite lookup_insert_ne|]. split; [done|]. split; [|done].
  unfold generate_affidavit, create_affidavit_pdf in Hgen.
  destruct (verify_api_key a); [|discriminate].
  destruct (build _ _ _ _); [|discriminate].
  cbn [fs log] in Hgen. destruct (os.write_file _ _ _); [|discriminate].
  by injection Hgen as <-.
Qed.

Lemma X6_generate_writes_one_file_witness :
  let run := @generate_affidavit demo_runtime demo_world demo_key demo_request
               1%Z 2%Z demo_now in
  ∃ l pdf,
    os.resolve (fs demo_world) "generated_pdfs/VAULT_Affidavit_TX123_00000000.pdf" = Some l ∧
    nodes (fs run.1) !! l = Some (File pdf) ∧
    nodes (fs run.1) !! ["app.py"; "app"; "srv"]
    = nodes (fs demo_world) !! ["app.py"; "app"; "srv"].
Proof.
  cbv zeta.
  destruct (@X6_generate_writes_one_file demo_runtime demo_world demo_key demo_request
              1%Z 2%Z demo_now
              (@generate_affidavit demo_runtime demo_world demo_key demo_request
                 1%Z 2%Z demo_now).1
              {| pdfUrl := "/download-affidavit/VAULT_Affidavit_TX123_00000000.pdf";
                 filename := "VAULT_Affidavit_TX123_00000000.pdf" |})
    as (l & pdf & _ & Hres & Hl & Hother & _).
  - vm_compute. reflexivity.
  - exists l, pdf. split; [exact Hres|]. split; [exact Hl|].
    apply Hother. intros <-. vm_compute in Hres. discriminate.
Defined.



(** ** The storage directory over a run of requests *)

Lemma startup_inv_dirs fs0 w0 :
  startup fs0 = Some w0 →
  os.is_dir fs0 (cwd fs0) = true ∧
  cwd (fs w0) = cwd fs0 ∧
  os.is_dir (fs w0) (storage fs0) = true ∧
  ∀ l, l ≠ storage fs0 → nodes (fs w0) !! l = nodes fs0 !! l.
Proof.
  unfold startup, os.makedirs.
  change (os.resolve fs0 PDF_STORAGE_DIR)
    with (if os.is_dir fs0 (cwd fs0) then Some (storage fs0) else None).
  destruct (os.is_dir fs0 (cwd fs0)); [|discriminate].
  destruct (os.is_dir fs0 (storage fs0)) eqn:Hst.
  - intros [= <-]. done.
  - destruct (os.is_entry fs0 (storage fs0)); [discriminate|].
    intros [= <-]. cbn [fs cwd nodes]. split; [done|]. split; [done|]. split.
    + unfold os.is_dir, storage. cbn [nodes]. by rewrite lookup_insert_eq.
    + intros l Hl. by rewrite lookup_insert_ne.
Qed.

Section RunFacts.

Context `{Runtime}.


Lemma handle_cwd w rq w' r : handle w rq = (w', r) → cwd (fs w') = cwd (fs w).
Proof.
  destruct rq as [a request u1 u2 now|a f]; cbn [handle].
  - destruct (generate_affidavit w a request u1 u2 now) as [w1 res] eqn:Hgen.
    intros [= <- <-]. apply generate_cases in Hgen.
    destruct res as [ref|e]; [|by rewrite Hgen].
    destruct Hgen as (_ & _ & pdf & _ & (l & _ & _ & ->)%write_file_inv). done.
  - destruct (retrieve w a f) as [w1 res] eqn:Hd.
    intros [= <- <-]. change w1 with (w1, res).1. by rewrite <- Hd, retrieve_fs.
Qed.

Lemma handle_outside w rq w' r P l :
  storage_inv (fs w) P → handle w rq = (w', r) →
  (∀ name, l ≠ name :: storage (fs w)) →
  nodes (fs w') !! l = nodes (fs w) !! l.
Proof.
  intros Hinv. destruct rq as [a request u1 u2 now|a f]; cbn [handle].
  - destruct (generate_affidavit w a request u1 u2 now) as [w1 res] eqn:Hgen.
    intros [= <- <-] Hl. apply generate_cases in Hgen.
    destruct res as [ref|e]; [|by rewrite Hgen].
    destruct Hgen as (_ & _ & pdf & _ & Hw).
    destruct (generate_target _ _ _ _ _ _ Hinv Hw) as (_ & _ & ->).
    cbn [nodes]. rewrite lookup_insert_ne; [done|]. apply not_eq_sym, Hl.
  - destruct (retrieve w a f) as [w1 res] eqn:Hd.
    intros [= <- <-] _. change w1 with (w1, res).1. by rewrite <- Hd, retrieve_fs.
Qed.

Lemma serve_outside w rqs P l :
  storage_inv (fs w) P →
  (∀ name, l ≠ name :: storage (fs w)) →
  nodes (fs (serve w rqs).1) !! l = nodes (fs w) !! l.
Proof.
  revert w P. induction rqs as [|rq rqs IH]; intros w P Hinv Hl; [done|].
  cbn [serve].
  destruct (handle w rq) as [w1 r] eqn:Hh.
  specialize (IH w1 _ (handle_inv _ _ _ _ _ Hinv Hh)).
  destruct (serve w1 rqs) as [w2 rs]. cbn [fst] in *.
  rewrite IH.
  - by eapply handle_outside.
  - unfold storage. rewrite (handle_cwd _ _ _ _ Hh). exact Hl.
Qed.

Lemma serve_cwd w rqs : cwd (fs (serve w rqs).1) = cwd (fs w).
Proof.
  revert w. induction rqs as [|rq rqs IH]; intros w; [done|].
  cbn [serve].
  destruct (handle w rq) as [w1 r] eqn:Hh. specialize (IH w1).
  destruct (serve w1 rqs) as [w2 rs]. cbn [fst] in *.
  by rewrite IH, (handle_cwd _ _ _ _ Hh).
Qed.

(** a stored file stays a file, and a name that is returned names a file *)
Lemma handle_present w rq w' r P f :
  storage_inv (fs w) P → handle w rq = (w', r) →
  (f ∈ produced [r] ∨ ∃ b, nodes (fs w) !! (f :: storage (fs w)) = Some (File b)) →
  ∃ b', nodes (fs w') !! (f :: storage (fs w')) = Some (File b').
Proof.
  intros Hinv Hh Hf.
  pose proof (handle_cwd _ _ _ _ Hh) as Hcwd.
  unfold storage. rewrite Hcwd. fold (storage (fs w)).
  destruct rq as [a request u1 u2 now|a f']; cbn [handle] in Hh.
  - destruct (generate_affidavit w a request u1 u2 now) as [w1 res] eqn:Hgen.
    injection Hh as <- <-. apply generate_cases in Hgen.
    destruct res as [ref|e].
    + destruct Hgen as (_ & -> & pdf & _ & Hw).
      destruct (generate_target _ _ _ _ _ _ Hinv Hw) as (_ & _ & ->).
      cbn [nodes].
      destruct (decide (affidavit_filename request u1 = f)) as [<-|Hne].
      * rewrite lookup_insert_eq. by eexists.
      * rewrite lookup_insert_ne by congruence.
        destruct Hf as [Hin|Hb]; [|done].
        cbn in Hin. apply list_elem_of_singleton in Hin. congruence.
    + rewrite Hgen. destruct Hf as [Hin|Hb]; [|done]. cbn in Hin. by apply elem_of_nil in Hin.
  - destruct (retrieve w a f') as [w1 res] eqn:Hd.
    injection Hh as <- <-. change w1 with (w1, res).1. rewrite <- Hd, retrieve_fs.
    destruct Hf as [Hin|Hb]; [|done]. cbn in Hin. by apply elem_of_nil in Hin.
Qed.

Lemma serve_present w rqs P f :
  storage_inv (fs w) P →
  (f ∈ produced (serve w rqs).2 ∨ ∃ b, nodes (fs w) !! (f :: storage (fs w)) = Some (File b)) →
  ∃ b', nodes (fs (serve w rqs).1) !! (f :: storage (fs (serve w rqs).1)) = Some (File b').
Proof.
  revert w P. induction rqs as [|rq rqs IH]; intros w P Hinv Hf.
  - cbn in *. destruct Hf as [Hin|Hb]; [by apply elem_of_nil in Hin|done].
  - cbn [serve] in *.
    destruct (handle w rq) as [w1 r] eqn:Hh.
    specialize (IH w1 _ (handle_inv _ _ _ _ _ Hinv Hh)).
    destruct (serve w1 rqs) as [w2 rs]. cbn [fst snd] in *.
    apply IH. rewrite produced_cons, elem_of_app in Hf.
    destruct Hf as [[Hr|Hrs]|Hb]; [right|by left|right];
      eapply handle_present; eauto.
Qed.

Lemma demo_world_inv : storage_inv (fs demo_world) [].
Proof.
  apply (startup_inv demo_fs demo_world); [reflexivity|reflexivity|].
  intros name. unfold demo_fs. cbn [nodes].
  rewrite !lookup_insert_ne by discriminate. by rewrite lookup_singleton_ne.
Qed.

End RunFacts.

(** X9. Let the service start with a storage directory that is empty or
    absent. Whatever requests are then served, with whatever identifiers,
    every entry of the file system other than the storage directory and the
    entries directly inside it stays as it was before the start: no
    [Generate] call writes outside the storage directory. *)
Theorem X9_nothing_written_outside_storage `{Runtime} fs0 w0 rqs l :
  startup fs0 = Some w0 →
  (∀ name, nodes fs0 !! (name :: storage fs0) = None) →
  l ≠ storage fs0 →
  (∀ name, l ≠ name :: storage fs0) →
  nodes (fs (serve w0 rqs).1) !! l = nodes fs0 !! l.
Proof.
  intros Hstart Hempty Hl Hl'.
  destruct (startup_inv_dirs _ _ Hstart) as (Hcwd & Hcwd0 & _ & Hsame).
  pose proof (startup_inv _ _ Hstart Hcwd Hempty) as Hinv.
  rewrite (serve_outside w0 rqs [] l Hinv).
  - by apply Hsame.
  - unfold storage. rewrite Hcwd0. exact Hl'.
Qed.

Lemma X9_nothing_written_outside_storage_witness :
  let rqs := [Generate demo_key (with_id demo_request "/../../escaped") 1%Z 2%Z demo_now;
              Generate demo_key demo_request 3%Z 4%Z demo_now] in
  nodes (fs (@serve demo_runtime demo_world rqs).1) !! ["escaped_00000000.pdf"; "app"; "srv"]
  = nodes demo_fs !! ["escaped_00000000.pdf"; "app"; "srv"].
Proof.
  cbv zeta.
  apply (@X9_nothing_written_outside_storage demo_runtime demo_fs demo_world).
  - vm_compute. reflexivity.
  - intros name. unfold demo_fs. cbn [nodes].
    rewrite !lookup_insert_ne by discriminate. by rewrite lookup_singleton_ne.
  - discriminate.
  - discriminate.
Defined.

(** X10. Under the same start, after any requests the entries directly inside
    the storage directory are exactly the file names that [Generate] calls
    have returned, each a regular file: documents are never removed, and
    nothing else appears there. *)
Theorem X10_storage_holds_the_returned_names `{Runtime} fs0 w0 rqs name :
  startup fs0 = Some w0 →
  (∀ name, nodes fs0 !! (name :: storage fs0) = None) →
  (name ∈ produced (serve w0 rqs).2
   ↔ ∃ b, nodes (fs (serve w0 rqs).1) !! (name :: storage fs0) = Some (File b)) ∧
  (name ∉ produced (serve w0 rqs).2
   ↔ nodes (fs (serve w0 rqs).1) !! (name :: storage fs0) = None).
Proof.
  intros Hstart Hempty.
  destruct (startup_inv_dirs _ _ Hstart) as (Hcwd & Hcwd0 & _ & _).
  pose proof (startup_inv _ _ Hstart Hcwd Hempty) as Hinv.
  pose proof (serve_inv w0 rqs [] Hinv) as (_ & _ & Hch).
  rewrite app_nil_r in Hch.
  assert (Hst : storage (fs (serve w0 rqs).1) = storage fs0)
    by (unfold storage; by rewrite serve_cwd, Hcwd0).
  rewrite Hst in Hch.
  assert (Hpres : name ∈ produced (serve w0 rqs).2 →
                  ∃ b, nodes (fs (serve w0 rqs).1) !! (name :: storage fs0) = Some (File b)).
  { intros Hin. rewrite <- Hst. eapply serve_present; [exact Hinv|by left]. }
  split; split.
  - exact Hpres.
  - intros [b Hb]. by destruct (Hch _ _ Hb).
  - intros Hnot.
    destruct (nodes (fs (serve w0 rqs).1) !! (name :: storage fs0)) as [n|] eqn:Hn; [|done].
    by destruct (Hch _ _ Hn).
  - intros Hnone Hin. destruct (Hpres Hin) as [b Hb]. congruence.
Qed.

Lemma X10_storage_holds_the_returned_names_witness :
  let rqs := [Generate demo_key demo_request 1%Z 2%Z demo_now;
              Generate "Bearer wrong" demo_request 3%Z 4%Z demo_now;
              Retrieve demo_key "VAULT_Affidavit_TX123_00000000.pdf"] in
  ∃ b, nodes (fs (@serve demo_runtime demo_world rqs).1)
         !! ["VAULT_Affidavit_TX123_00000000.pdf"; "generated_pdfs"; "app"; "srv"]
       = Some (File b).
Proof.
  cbv zeta.
  apply (@X10_storage_holds_the_returned_names demo_runtime demo_fs demo_world).
  - vm_compute. reflexivity.
  - intros name. unfold demo_fs. cbn [nodes].
    rewrite !lookup_insert_ne by discriminate. by rewrite lookup_singleton_ne.
  - vm_compute. left.
Defined.

(** X11. Where the storage directory holds only regular files, a record
    whose identifier contains a slash cannot be stored: with an accepted
    credential [Generate] answers status 500 and the file system stays as it
    was. *)
Theorem X11_slash_identifiers_fail `{Runtime} w P a request u1 u2 now :
  storage_inv (fs w) P →
  authorized a →
  str.lacks "/" (transactionId request) = false →
  ∃ e, (generate_affidavit w a request u1 u2 now).2 = Raise e ∧
       status_code e = 500%nat ∧
       fs (generate_affidavit w a request u1 u2 now).1 = fs w.
Proof.
  intros Hinv Ha Hid.
  destruct (generate_affidavit w a request u1 u2 now) as [w' [ref|e]] eqn:Hgen.
  - exfalso. apply generate_cases in Hgen as (_ & _ & pdf & _ & Hw).
    destruct (generate_target _ _ _ _ _ _ Hinv Hw) as ((Hl & _) & _).
    unfold affidavit_filename in Hl. rewrite !lacks_app, Hid in Hl.
    by rewrite andb_false_r in Hl.
  - exists e. cbn [fst snd]. split; [done|].
    apply generate_raise_inv in Hgen as [[Hv _]|(_ & Hfs & _ & e0 & ->)].
    + by apply authorized_not_refused in Hv.
    + done.
Qed.

Lemma X11_slash_identifiers_fail_witness :
  ∃ e, (@generate_affidavit demo_runtime demo_world demo_key
          (with_id demo_request "../../etc/x") 1%Z 2%Z demo_now).2 = Raise e ∧
       status_code e = 500%nat.
Proof.
  destruct (@X11_slash_identifiers_fail demo_runtime demo_world [] demo_key
              (with_id demo_request "../../etc/x") 1%Z 2%Z demo_now)
    as (e & He & Hs & _).
  - exact demo_world_inv.
  - vm_compute. reflexivity.
  - vm_compute. reflexivity.
  - exists e. split; [exact He|exact Hs].
Defined.

(** X12. Starting the module creates the storage directory when it is absent
    and changes nothing else; started again on the result it changes nothing
    at all ([exist_ok=True]). *)
Theorem X12_startup_is_idempotent fs0 w0 :
  startup fs0 = Some w0 →
  os.is_dir (fs w0) (storage fs0) = true ∧
  (∀ l, l ≠ storage fs0 → nodes (fs w0) !! l = nodes fs0 !! l) ∧
  startup (fs w0) = Some {| fs := fs w0; effects := [] |}.
Proof.
  intros Hstart.
  destruct (startup_inv_dirs _ _ Hstart) as (Hcwd & Hcwd0 & Hst & Hsame).
  split; [done|]. split; [done|].
  unfold startup, os.makedirs.
  change (os.resolve (fs w0) PDF_STORAGE_DIR)
    with (if os.is_dir (fs w0) (cwd (fs w0)) then Some (storage (fs w0)) else None).
  assert (Hst0 : storage (fs w0) = storage fs0) by (unfold storage; by rewrite Hcwd0).
  assert (Hc : os.is_dir (fs w0) (cwd (fs w0)) = true).
  { rewrite Hcwd0. destruct (cwd fs0) as [|c l] eqn:Hl; [done|].
    unfold os.is_dir in *. rewrite Hsame; [done|].
    unfold storage. rewrite Hl. apply cons_neq_self. }
  by rewrite Hc, Hst0, Hst.
Qed.

Lemma X12_startup_is_idempotent_witness :
  startup (fs demo_world) = Some {| fs := fs demo_world; effects := [] |}.
Proof.
  apply (X12_startup_is_idempotent demo_fs demo_world).
  vm_compute. reflexivity.
Defined.



(** ** The page decorator on the whole *)

Section DecoratorFacts.

Context `{Runtime}.

Local Open Scope Q_scope.

(** X14. On a canvas whose calls do not fail the decorator completes and
    appends six drawings to the page, in this order: the header bar (filled
    green, as wide as the page), the wordmark (white, Helvetica-Bold 16), the
    watermark (light green, Helvetica-Bold 80, drawn at the origin under a
    translation to the page centre line followed by a rotation of 45), the
    footer bar (green), the footer text (white, Helvetica 8, with the reading
    of the clock) and the border (stroked green, line width 0.5). All but
    the watermark are drawn under the transform of the entry state; what was
    on the page before stays in front of them in the content. *)
Theorem X14_decorator_drawings now doc c :
  (∀ k c0, canvas_fault k c0 = false) →
  let g := gstate c in
  let st fill stroke font size lw xf :=
    {| fillColor := fill; strokeColor := stroke; fontName := font;
       fontSize_ := size; lineWidth := lw; ctm := xf ++ ctm g |} in
  let page_width := doc_width doc + leftMargin doc + rightMargin doc in
  ∃ c',
    add_page_elements now doc c = (c', Ok tt) ∧
    content c'
    = content c ++
      [ (st VAULT_GREEN (strokeColor g) (fontName g) (fontSize_ g) (lineWidth g) [],
         DrawRect 0 (doc_height doc + topMargin doc - 0.5 * inch)
                  page_width (0.5 * inch) true false);
        (st VAULT_WHITE (strokeColor g) "Helvetica-Bold" 16 (lineWidth g) [],
         DrawString (leftMargin doc) (doc_height doc + topMargin doc - 0.3 * inch)
                    "VAULT");
        (st VAULT_LIGHT_GREEN (strokeColor g) "Helvetica-Bold" 80 (lineWidth g)
            [Rotate 45; Translate (doc_width doc / 2 + leftMargin doc) (doc_height doc / 2)],
         DrawCentredString 0 0 "VAULT");
        (st VAULT_GREEN (strokeColor g) "Helvetica-Bold" 80 (lineWidth g) [],
         DrawRect 0 (bottomMargin doc - 0.4 * inch) page_width (0.3 * inch) true false);
        (st VAULT_WHITE (strokeColor g) "Helvetica" 8 (lineWidth g) [],
         DrawCentredString
           (doc_width doc / 2 + leftMargin doc) (bottomMargin doc - 0.25 * inch)
           ("VAULT Financial | Transaction Record | Generated on "
              +:+ strftime now "%Y-%m-%d %H:%M:%S"));
        (st VAULT_WHITE VAULT_GREEN "Helvetica" 8 0.5 [],
         DrawRect (leftMargin doc - 10) (bottomMargin doc - 0.5 * inch)
                  (doc_width doc + 20) (doc_height doc + topMargin doc + 0.5 * inch)
                  false true) ].
Proof.
  intros Hsound. cbv zeta.
  destruct c as [[fc sc fn fsz lw tm] stk ct].
  eexists. split.
  - unfold add_page_elements. cbv zeta.
    do 21 (eapply bind_call;
           [apply call_sound;
            [apply Hsound
            |cbn [exec with_gstate draw gstate stateStack content fillColor
                  strokeColor fontName fontSize_ lineWidth ctm]; reflexivity]|]).
    apply call_sound; [apply Hsound|].
    cbn [exec with_gstate draw gstate stateStack content fillColor
         strokeColor fontName fontSize_ lineWidth ctm]. reflexivity.
  - cbn [content gstate fillColor strokeColor fontName fontSize_ lineWidth ctm app].
    rewrite <- !app_assoc. reflexivity.
Qed.

End DecoratorFacts.

Lemma X14_decorator_drawings_witness :
  ∃ c', @add_page_elements demo_runtime demo_now demo_doc demo_canvas = (c', Ok tt) ∧
        length (content c') = 6%nat.
Proof.
  destruct (@X14_decorator_drawings demo_runtime demo_now demo_doc demo_canvas)
    as (c' & Hrun & Hcontent).
  - reflexivity.
  - exists c'. split; [exact Hrun|]. rewrite Hcontent. reflexivity.
Defined.

Lemma frames_save fault d : frames d (S d) (call fault saveState).
Proof.
  intros c c' r pre base. unfold call.
  destruct (fault saveState c); intros [= <- <-] Hstack Hlen.
  - split; [done|]. exists pre. split; [done|]. discriminate.
  - cbn. split; [done|]. exists (gstate c :: pre).
    rewrite Hstack. split; [done|]. intros _ _. cbn. by rewrite Hlen.
Qed.

Lemma frames_restore fault d : frames (S d) d (call fault restoreState).
Proof.
  intros c c' r pre base. unfold call.
  destruct (fault restoreState c).
  - intros [= <- <-] Hstack Hlen.
    split; [done|]. exists pre. split; [done|]. discriminate.
  - intros Hrun Hstack Hlen. destruct pre as [|g pre]; [discriminate|].
    cbn in Hrun. rewrite Hstack in Hrun. cbn in Hrun. injection Hrun as <- <-.
    cbn. split; [done|]. exists pre. split; [done|]. intros _ _. cbn in Hlen. lia.
Qed.

Lemma frames_other fault k d :
  k ≠ saveState → k ≠ restoreState → frames d d (call fault k).
Proof.
  intros Hs Hr c c' r pre base. unfold call.
  destruct (fault k c).
  - intros [= <- <-] Hstack Hlen.
    split; [done|]. exists pre. split; [done|]. discriminate.
  - destruct k; try done; cbn; intros [= <- <-] Hstack Hlen;
      (split; [first [done|by apply prefix_app_r]|]); exists pre; by split.
Qed.

Lemma frames_bind {A B} (m : CanvasM A) (n : CanvasM B) d d1 d2 :
  frames d d1 m → frames d1 d2 n → frames d d2 (m ;; n).
Proof.
  intros Hm Hn c c' r pre base. unfold mbind, CanvasM_bind.
  destruct (m c) as [c1 [a|e]] eqn:Hmc; intros Hrun Hstack Hlen.
  - destruct (Hm _ _ _ _ _ Hmc Hstack Hlen) as (Hp1 & pre1 & Hs1 & Hl1).
    destruct (Hn _ _ _ _ _ Hrun Hs1 (Hl1 a eq_refl)) as (Hp2 & pre2 & Hs2 & Hl2).
    split; [by etrans|]. by exists pre2.
  - injection Hrun as <- <-.
    destruct (Hm _ _ _ _ _ Hmc Hstack Hlen) as (Hp1 & pre1 & Hs1 & _).
    split; [done|]. exists pre1. split; [done|]. discriminate.
Qed.

(** X15. However the decorator ends, by completing or by an exception of any
    canvas call, the page content it found is still there, in front of what
    it has drawn, and the saved states it found are still on the stack,
    below the ones it may have left: the decorator never removes a drawing
    and never pops a state it did not save. *)
Theorem X15_decorator_keeps_what_it_found `{Runtime} now doc c c' r :
  add_page_elements now doc c = (c', r) →
  content c `prefix_of` content c' ∧
  stateStack c `suffix_of` stateStack c'.
Proof.
  intros Hrun.
  assert (Hframes : frames 0 0 (add_page_elements now doc)).
  { unfold add_page_elements. cbv zeta.
    do 21 (eapply frames_bind;
           [first [apply frames_save | apply frames_restore
                  | apply frames_other; discriminate]|]).
    apply frames_restore. }
  destruct (Hframes c c' r [] (stateStack c) Hrun eq_refl eq_refl)
    as (Hp & pre' & Hs & _).
  split; [done|]. by exists pre'.
Qed.

Lemma X15_decorator_keeps_what_it_found_witness :
  let run := @add_page_elements faulty_runtime demo_now demo_doc busy_canvas in
  (∃ e, run.2 = Raise e) ∧
  content busy_canvas `prefix_of` content run.1 ∧
  stateStack busy_canvas `suffix_of` stateStack run.1.
Proof.
  cbv zeta. split; [eexists; vm_compute; reflexivity|].
  exact (@X15_decorator_keeps_what_it_found faulty_runtime demo_now demo_doc busy_canvas
           _ _ (surjective_pairing _)).
Defined.

(** ** The content of two documents for one record *)

(** The content always has twelve blocks, and two documents composed for
    the same record, at different times and with different UUIDs, differ at
    most in the tenth block (the verification sentence, which carries the
    time of generation) and the twelfth (the verification table, which
    carries the hash): the first nine blocks, the transaction table among
    them, and the eleventh are the same. *)
Lemma documents_differ_in_time_and_hash `{Runtime} data u now u' now' :
  length (elements data u now) = 12%nat ∧
  take 9 (elements data u now) = take 9 (elements data u' now') ∧
  elements data u now !! 10%nat = elements data u' now' !! 10%nat ∧
  elements data u now !! 9%nat
  = Some (Paragraph ("Digitally verified and generated on "
                       +:+ strftime now "%B %d, %Y at %H:%M:%S" +:+ ".")
                    normal_style).
Proof. repeat split. Qed.
